(** * jupyterlab_omnisci/altair.py: Ibis expressions inside Altair charts

    A shallow embedding of the Python module [jupyterlab_omnisci/altair.py]
    and the properties of its rewriter, its name registry, its patched chart
    constructor and its renderer.

    Conventions of the embedding:
    - a JSON value (a Vega-Lite spec and everything inside it) is a [json];
      a Python dict with string keys is a [gmap string json], compared the way
      Python compares dicts (by keys and values, not by insertion order);
    - an ibis expression is the tree of the ibis API calls that built it
      ([Expr]); what the ibis library computes from such a tree (its columns,
      its schema, its SQL, its rows) is a parameter of the development;
    - a Python exception is a value [Raise e] of the [result] monad;
    - module globals and the notebook front end are explicit state. *)

From stdpp Require Import gmap strings list fin_maps pretty.

#[local] Set Warnings "-register-all".
#[local] Open Scope string_scope.
#[local] Open Scope list_scope.

(** ** Python values *)

Inductive json :=
| JNull
| JBool (b : bool)
| JNum (n : Z)
| JStr (s : string)
| JList (l : list json)
| JDict (d : gmap string json).

Abbreviation dict := (gmap string json).

Inductive exn :=
| KeyError (key : string)
| TypeError
| AttributeError
| ValueError
| RuntimeError
| AssertionError.

Inductive result (A : Type) :=
| Ok (a : A)
| Raise (e : exn).
Arguments Ok {A} a.
Arguments Raise {A} e.

#[global] Instance result_ret : MRet result := fun A a => Ok a.
#[global] Instance result_bind : MBind result := fun A B f m =>
  match m with
  | Ok a => f a
  | Raise e => Raise e
  end.
#[global] Instance result_fmap : FMap result := fun A B f m =>
  match m with
  | Ok a => Ok (f a)
  | Raise e => Raise e
  end.

Definition returns {A} (m : result A) : Prop := ∃ a, m = Ok a.

(** [bool(v)] of Python. *)
Definition truthy (v : json) : bool :=
  match v with
  | JNull => false
  | JBool b => b
  | JNum n => negb (n =? 0)%Z
  | JStr s => negb (String.eqb s "")
  | JList l => match l with [] => false | _ => true end
  | JDict d => match map_to_list d with [] => false | _ => true end
  end.

(** [d.pop(k, None)]: the value under [k] (or [None]) and the dict without
    [k]. *)
Definition dict_pop (k : string) (d : dict) : json * dict :=
  (default JNull (d !! k), delete k d).

(** [d[k]], raising [KeyError]. *)
Definition dict_get (k : string) (d : dict) : result json :=
  match d !! k with
  | Some v => Ok v
  | None => Raise (KeyError k)
  end.

(** [k in d]. *)
Definition has_key (k : string) (d : dict) : bool :=
  match d !! k with
  | Some _ => true
  | None => false
  end.

(** The elements a [for] loop, a comprehension or an unpacking draws from a
    value: the items of a list, the one-character strings of a string, the
    keys of a dict; anything else is not iterable.  A [gmap] has no insertion
    order, so the keys of a dict come in the map's order. *)
Definition py_iter (v : json) : result (list json) :=
  match v with
  | JList l => Ok l
  | JStr s => Ok ((λ c, JStr (String c EmptyString)) <$> String.list_ascii_of_string s)
  | JDict d => Ok ((λ kv, JStr kv.1) <$> map_to_list d)
  | _ => Raise TypeError
  end.

(** [a, b = v]. *)
Definition unpack2 (v : json) : result (json * json) :=
  l ← py_iter v;
  match l with
  | [a; b] => Ok (a, b)
  | _ => Raise ValueError
  end.

(** ** Ibis expressions

    An ibis expression is built lazily: every API call returns a new
    expression node.  The tree records the calls this module makes. *)

Inductive cmpop := CmpGe | CmpLe | CmpEq | CmpGt | CmpLt.

Inductive Expr :=
| ETable (name : string)                      (* a table of the database *)
| EGroupby (e : Expr) (by_ : json)            (* e.groupby(by) *)
| EAggregate (e : Expr) (metrics : list Expr) (* e.aggregate(metrics) *)
| EFilter (e : Expr) (preds : list Expr)      (* e.filter(preds) *)
| EGetitem (e : Expr) (key : json)            (* e[key] *)
| ECall (e : Expr) (method : string)          (* getattr(e, method)() *)
| EName (e : Expr) (as_ : json)               (* e.name(as) *)
| ECompare (op : cmpop) (e : Expr) (v : json) (* e >= v, e <= v, ... *).

(** ** The rewriter *)

(** [{"mean": "mean", "average": "mean"}.get(op, op)] *)
Definition translate_op (op : string) : string :=
  if String.eqb op "mean" then "mean"
  else if String.eqb op "average" then "mean"
  else op.

(** One record of a Vega-Lite aggregate list, as an ibis reduction.
    Subscripting a value that is not a dict with a string raises
    [TypeError], and so does [getattr] with a name that is not a string. *)
Definition vl_aggregate_to_grouping_expr (expr : Expr) (a : json) : result Expr :=
  match a with
  | JDict a =>
      expr ← (if has_key "field" a
              then field ← dict_get "field" a; Ok (EGetitem expr field)
              else Ok expr);
      op ← dict_get "op" a;
      match op with
      | JStr op =>
          let expr := ECall expr (translate_op op) in
          as_ ← dict_get "as" a;
          Ok (EName expr as_)
      | _ => Raise TypeError
      end
  | _ => Raise TypeError
  end.

Section Rewriter.
(** [expr.columns], an attribute computed by the ibis library. *)
Variable columns : Expr → list string.

(** [field in expr.columns]: only a string equals a column name. *)
Definition field_in_columns (expr : Expr) (field : json) : bool :=
  match field with
  | JStr s => bool_decide (s ∈ columns expr)
  | _ => false
  end.

(** The predicates of a field filter, [None] when the filter has none of
    the six keys. *)
Definition filter_preds (field_expr : Expr) (filter_ : dict)
  : result (option (list Expr)) :=
  if has_key "range" filter_ then
    r ← dict_get "range" filter_;
    '(min, max) ← unpack2 r;
    Ok (Some [ECompare CmpGe field_expr min; ECompare CmpLe field_expr max])
  else if has_key "equal" filter_ then
    v ← dict_get "equal" filter_; Ok (Some [ECompare CmpEq field_expr v])
  else if has_key "gt" filter_ then
    v ← dict_get "gt" filter_; Ok (Some [ECompare CmpGt field_expr v])
  else if has_key "lt" filter_ then
    v ← dict_get "lt" filter_; Ok (Some [ECompare CmpLt field_expr v])
  else if has_key "lte" filter_ then
    v ← dict_get "lte" filter_; Ok (Some [ECompare CmpLe field_expr v])
  else if has_key "gte" filter_ then
    v ← dict_get "gte" filter_; Ok (Some [ECompare CmpGe field_expr v])
  else Ok None.

(** The [filter] part of the loop body: [transform] has had its three keys
    popped; the result is the expression and the transform at the end of
    the iteration. *)
Definition step_filter (original_expr expr : Expr) (filter_ : json)
    (transform : dict) : result (Expr * dict) :=
  if truthy filter_ then
    match filter_ with
    | JDict f =>
        field ← dict_get "field" f;
        let field_expr := EGetitem original_expr field in
        preds ← filter_preds field_expr f;
        match preds with
        | Some preds => Ok (EFilter expr preds, transform)
        | None => Ok (expr, <["filter" := filter_]> transform)
        end
    | _ => Raise TypeError
    end
  else Ok (expr, transform).

(** The [aggregate] and [filter] parts of the loop body. *)
Definition step_aggregate (original_expr expr : Expr) (transform : dict)
  : result (Expr * dict) :=
  let '(aggregate, transform) := dict_pop "aggregate" transform in
  expr ← (if truthy aggregate then
            items ← py_iter aggregate;
            metrics ← mapM (vl_aggregate_to_grouping_expr original_expr) items;
            Ok (EAggregate expr metrics)
          else Ok expr);
  let '(filter_, transform) := dict_pop "filter" transform in
  step_filter original_expr expr filter_ transform.

(** One iteration of the loop over [spec["transform"]].  The loop pops keys
    from the transform in place; here the transform at the end of the
    iteration is returned.  A list has a one-argument [pop] ([TypeError]),
    the other values have none ([AttributeError]). *)
Definition transform_step (original_expr expr : Expr) (transform : json)
  : result (Expr * json) :=
  match transform with
  | JDict transform =>
      let '(groupby, transform) := dict_pop "groupby" transform in
      if truthy groupby then
        fields ← py_iter groupby;
        if forallb (field_in_columns expr) fields then
          '(expr, transform) ←
            step_aggregate original_expr (EGroupby expr groupby) transform;
          Ok (expr, JDict transform)
        else Ok (expr, JDict (<["groupby" := groupby]> transform))
      else
        '(expr, transform) ← step_aggregate original_expr expr transform;
        Ok (expr, JDict transform)
  | JList _ => Raise TypeError
  | _ => Raise AttributeError
  end.

(** The loop over the transforms, in order: the expression is threaded
    through the iterations and the first exception ends the loop.  The
    entries of the list are distinct objects, as they are in a spec decoded
    from JSON. *)
Fixpoint transform_loop (original_expr expr : Expr) (transforms : list json)
  : result (Expr * list json) :=
  match transforms with
  | [] => Ok (expr, [])
  | transform :: rest =>
      '(expr, transform) ← transform_step original_expr expr transform;
      '(expr, rest) ← transform_loop original_expr expr rest;
      Ok (expr, transform :: rest)
  end.

(** [update_spec(expr, spec)]: the returned expression and the spec as the
    call leaves it. *)
Definition update_spec (expr : Expr) (spec : dict) : result (Expr * dict) :=
  let original_expr := expr in
  transforms ← py_iter (default (JList []) (spec !! "transform"));
  '(expr, transforms) ← transform_loop original_expr expr transforms;
  let kept := filter (λ i, truthy i = true) transforms in
  let spec := <["transform" := JList kept]> spec in
  if truthy (JList kept) then Ok (expr, spec)
  else Ok (expr, delete "transform" spec).
End Rewriter.

(** Two transform entries with the same value under every key other than
    "groupby", "aggregate" and "filter". *)
Definition same_other_keys (t t' : dict) : Prop :=
  ∀ k, k ∉ ["groupby"; "aggregate"; "filter"] → t' !! k = t !! k.

(** A transform entry without the three keys the rewriter pops. *)
Definition without_rewritten_keys (t : dict) : dict :=
  delete "filter" (delete "aggregate" (delete "groupby" t)).

(** An entry none of whose three keys holds a truthy value: the keys are
    absent, or hold an empty list, an empty dict, null and the like. *)
Definition nothing_to_rewrite (t : dict) : bool :=
  negb (truthy (default JNull (t !! "groupby")))
  && negb (truthy (default JNull (t !! "aggregate")))
  && negb (truthy (default JNull (t !! "filter"))).

(** ** The registry of expressions

    The module globals [_i] and [_name_to_ibis]. *)

Record globals := Globals {
  _i : nat;
  _name_to_ibis : gmap string Expr;
}.

(** The state of the module when it has just been imported. *)
Definition initial_globals : globals := Globals 0 ∅.

(** A pandas dataframe, as far as this module looks at it: its columns,
    their dtypes, its rows, and the attribute [ibis] when it has been set. *)
Record DataFrame := Frame {
  df_columns : list string;
  df_dtypes : list string;
  df_rows : list (list json);
  df_ibis : option Expr;
}.

(** The Python objects that reach the data transformer and the chart
    constructor. *)
Inductive pyobj :=
| PNone
| PExpr (e : Expr)
| PFrame (df : DataFrame)
| PJson (v : json).

(** [v[k]] for a string [k]: only a dict can be subscripted with a string. *)
Definition subscript (v : json) (k : string) : result json :=
  match v with
  | JDict d => dict_get k d
  | _ => Raise TypeError
  end.

(** [_name_to_ibis.pop(name)]: the keys are strings; a list or a dict is not
    hashable, any other value is a key that is absent (its [KeyError] is
    written with an empty key). *)
Definition registry_pop (name : json) (g : globals) : result Expr * globals :=
  match name with
  | JStr s =>
      match _name_to_ibis g !! s with
      | Some e => (Ok e, Globals (_i g) (delete s (_name_to_ibis g)))
      | None => (Raise (KeyError s), g)
      end
  | JList _ | JDict _ => (Raise TypeError, g)
  | _ => (Raise (KeyError ""), g)
  end.

(** [try: ... except KeyError: raise RuntimeError(...)] *)
Definition except_KeyError {A} (m : result A) : result A :=
  match m with
  | Raise (KeyError _) => Raise RuntimeError
  | _ => m
  end.

Definition retrieve_expr (spec : dict) (g : globals) : result Expr * globals :=
  let spec := if has_key "spec" spec then default JNull (spec !! "spec")
              else JDict spec in
  match except_KeyError (data ← subscript spec "data"; subscript data "name") with
  | Ok name =>
      let '(r, g) := registry_pop name g in (except_KeyError r, g)
  | Raise e => (Raise e, g)
  end.

(** [ibis_transformation(data)].  The counter is incremented before
    [data.ibis] is read. *)
Definition ibis_transformation (data : pyobj) (g : globals) : result dict * globals :=
  match data with
  | PFrame data =>
      let name := "ibis_" +:+ pretty (_i g) in
      let g := Globals (S (_i g)) (_name_to_ibis g) in
      match df_ibis data with
      | Some expr =>
          (Ok {[ "name" := JStr name ]},
           Globals (_i g) (<[name := expr]> (_name_to_ibis g)))
      | None => (Raise AttributeError, g)
      end
  | _ => (Raise AssertionError, g)
  end.

(** The states of the globals the module can be in: the one at import,
    and those the two functions that touch the globals lead to. *)
Inductive reachable : globals → Prop :=
| reachable_initial : reachable initial_globals
| reachable_transformation data g :
    reachable g → reachable (ibis_transformation data g).2
| reachable_retrieve spec g :
    reachable g → reachable (retrieve_expr spec g).2.

(** The states that follow a state: those the two functions lead to from
    it, through calls that return and calls that raise. *)
Inductive follows (g : globals) : globals → Prop :=
| follows_here : follows g g
| follows_transformation data g' :
    follows g g' → follows g (ibis_transformation data g').2
| follows_retrieve spec g' :
    follows g g' → follows g (retrieve_expr spec g').2.

(** A name that was generated and is no longer in the dictionary. *)
Definition retired (g : globals) (name : string) : Prop :=
  (∃ j, j < _i g ∧ name = "ibis_" +:+ pretty j) ∧ _name_to_ibis g !! name = None.

(** ** The patched chart constructor *)

Section Chart.
Variable columns : Expr → list string.
(** [expr.schema()]: the names and the types of the columns. *)
Variable schema : Expr → list (string * string).

(** Modelled from the spec: [pandas.DataFrame(columns=...)] is pandas code;
    it makes a frame with the given columns, of dtype object, and no
    row. *)
Definition pandas_DataFrame (cols : list string) : DataFrame :=
  Frame cols (replicate (length cols) "object") [] None.

(** Modelled from the spec: [Schema.apply_to] is ibis code; it gives the
    columns of the frame the types of the schema and returns the frame. *)
Definition apply_to (sch : list (string * string)) (df : DataFrame) : DataFrame :=
  Frame (df_columns df) (sch.*2) (df_rows df) (df_ibis df).

Definition empty (expr : Expr) : DataFrame :=
  apply_to (schema expr) (pandas_DataFrame (columns expr)).

(** [data.ibis = expr] *)
Definition set_ibis (data : DataFrame) (expr : Expr) : DataFrame :=
  Frame (df_columns data) (df_dtypes data) (df_rows data) (Some expr).

(** What a call of a constructor returns, whatever that is. *)
Variable R : Type.

(** A constructor [__init__(self, *args, **kwargs)], as a function of the
    positional and the keyword arguments of a call. *)
Definition init_fn := pyobj → list pyobj → gmap string pyobj → result R.

(** The body of [updated_chart_init(self, data=None, *args, **kwargs)],
    which calls [original_chart_init(self, data=data, *args, **kwargs)]. *)
Definition updated_chart_init (original_chart_init : init_fn)
    (self data : pyobj) (args : list pyobj) (kwargs : gmap string pyobj)
  : result R :=
  let data := match data with
              | PExpr expr => PFrame (set_ibis (empty expr) expr)
              | _ => data
              end in
  original_chart_init self args (<["data" := data]> kwargs).

(** How Python binds the arguments of a call to the parameters
    [(self, data=None, *args, **kwargs)]. *)
Definition bind_data (pos : list pyobj) (kw : gmap string pyobj)
  : result (pyobj * list pyobj * gmap string pyobj) :=
  match pos with
  | data :: args =>
      match kw !! "data" with
      | Some _ => Raise TypeError
      | None => Ok (data, args, kw)
      end
  | [] => Ok (default PNone (kw !! "data"), [], delete "data" kw)
  end.

(** [monkeypatch_altair()], as a function of [altair.Chart.__init__]
    before the call to what it is after the call. *)
Definition monkeypatch_altair (Chart_init : init_fn) : init_fn :=
  let original_chart_init := Chart_init in
  λ self pos kw,
    '(data, args, kwargs) ← bind_data pos kw;
    updated_chart_init original_chart_init self data args kwargs.
End Chart.

(** ** The renderer *)

Definition EMPTY_SPEC : json :=
  JDict {[ "data" := JDict {[ "values" := JList [] ]}; "mark" := JStr "bar" ]}.

Definition COMM_ID : string := "extract-vega-lite".

Inductive display_class := VegaLite | VegaLiteOmniSci | CompatJSON | Code.

(** [set_data(spec, data)]: the spec after the call. *)
Definition set_data (spec : json) (data : json) : result json :=
  match spec with
  | JDict spec =>
      if has_key "spec" spec then
        match spec !! "spec" with
        | Some (JDict sub) =>
            Ok (JDict (<["spec" := JDict (<["data" := data]> sub)]> spec))
        | _ => Raise TypeError
        end
      else Ok (JDict (<["data" := data]> spec))
  | _ => Raise TypeError
  end.

Section Renderer.
Variable columns : Expr → list string.
(** The connection of an expression, [expr.op().table.op().source]. *)
Variable Conn : Type.
Variable get_client : Expr → Conn.
(** [expr.compile()], the SQL text of an expression. *)
Variable compile_sql : Expr → string.
(** [DEFAULT_TRANSFORMER(expr.execute())], the rows of an expression as
    JSON data. *)
Variable execute_to_json : Expr → json.

(** What is handed to a display class: a JSON value, a pair of a spec and
    a connection, or a text. *)
Inductive display_data :=
| DJson (v : json)
| DSpecConn (spec : json) (conn : Conn)
| DText (s : string).

Record DisplayObject := Display {
  display_type : display_class;
  data : display_data;
}.

(** [get_ipython().display_formatter.format(obj)[0]] *)
Variable format : DisplayObject → json.

(** The free variables of the closures [to_data] and [to_display]: the
    arguments [type] and [compile], the retrieved expression and the
    display class.  The variable [conn], bound for "vl-omnisci" only, is
    [get_client] of the retrieved expression. *)
Record env := Env {
  env_type : string;
  env_compile : bool;
  env_expr : Expr;
  env_display_type : display_class;
}.

(** [to_data(spec)]; a type that is none of the four falls through every
    branch and the function returns [None]. *)
Definition to_data (ρ : env) (spec : json) : result display_data :=
  '(expr, spec) ←
    (if env_compile ρ then
       match spec with
       | JDict d => '(e, d) ← update_spec columns (env_expr ρ) d; Ok (e, JDict d)
       | _ => Raise AttributeError
       end
     else Ok (env_expr ρ, spec));
  if String.eqb (env_type ρ) "vl" then
    spec ← set_data spec (execute_to_json expr); Ok (DJson spec)
  else if String.eqb (env_type ρ) "vl-omnisci" then
    spec ← set_data spec (JDict {[ "sql" := JStr (compile_sql expr) ]});
    Ok (DSpecConn spec (get_client (env_expr ρ)))
  else if String.eqb (env_type ρ) "json" then Ok (DJson spec)
  else if String.eqb (env_type ρ) "sql" then Ok (DText (compile_sql expr))
  else Ok (DJson JNull).

Definition to_display (ρ : env) (spec : json) : result DisplayObject :=
  d ← to_data ρ spec; Ok (Display (env_display_type ρ) d).

(** A comm opened by the kernel: its target, the data it was opened with,
    and the callback registered with [on_msg]: the closure
    [lambda s: display_id.update(to_display(s))], that is its environment
    and its display handle. *)
Record Comm := MkComm {
  target_name : string;
  comm_data : json;
  on_msg : env * nat;
}.

(** The kernel: the module globals, the outputs displayed so far (a
    display handle is an index into them) and the comms opened so far. *)
Record kernel := Kernel {
  k_globals : globals;
  k_outputs : list DisplayObject;
  k_comms : list Comm;
}.

(** The display class and the placeholder for a type; [None] when the
    type is none of the four. *)
Definition placeholder (type : string) (expr : Expr)
  : option (display_class * display_data) :=
  if String.eqb type "vl" then Some (VegaLite, DJson EMPTY_SPEC)
  else if String.eqb type "vl-omnisci" then
    let conn := get_client expr in
    Some (VegaLiteOmniSci, DSpecConn EMPTY_SPEC conn)
  else if String.eqb type "json" then
    Some (CompatJSON,
          DJson (JDict {[ "_" := JStr "Waiting for transformed spec..." ]}))
  else if String.eqb type "sql" then
    Some (Code, DText "Waiting for transformed spec...")
  else None.

(** [extract_spec(spec, callback)]: opens a comm and registers the
    callback on it. *)
Definition extract_spec (spec : json) (callback : env * nat) (k : kernel) : kernel :=
  let my_comm := MkComm COMM_ID spec callback in
  Kernel (k_globals k) (k_outputs k) (k_comms k ++ [my_comm]).

(** [display(obj, display_id=True)]: shows the object and returns its
    handle. *)
Definition display (obj : DisplayObject) (k : kernel) : nat * kernel :=
  (length (k_outputs k), Kernel (k_globals k) (k_outputs k ++ [obj]) (k_comms k)).

(** [display_id.update(obj)] *)
Definition display_update (display_id : nat) (obj : DisplayObject) (k : kernel) : kernel :=
  Kernel (k_globals k) (<[display_id := obj]> (k_outputs k)) (k_comms k).

Definition ibis_renderer (spec : dict) (type : string) (extract compile : bool)
    (k : kernel) : result json * kernel :=
  let '(r, g) := retrieve_expr spec (k_globals k) in
  let k := Kernel g (k_outputs k) (k_comms k) in
  match r with
  | Raise e => (Raise e, k)
  | Ok expr =>
      match placeholder type expr with
      | None => (Raise AssertionError, k)
      | Some (display_type, display_data) =>
          let ρ := Env type compile expr display_type in
          if extract then
            let '(display_id, k) := display (Display display_type display_data) k in
            let k := extract_spec (JDict spec) (ρ, display_id) k in
            (Ok (JDict {[ "text/plain" := JStr "" ]}), k)
          else
            (obj ← to_display ρ (JDict spec); Ok (format obj), k)
      end
  end.

(** The front end sends [msg] on the comm number [c]: the kernel runs the
    callback [_recv(msg)] registered on that comm.  An exception in the
    callback leaves the outputs as they are. *)
Definition comm_msg (c : nat) (msg : json) (k : kernel) : kernel :=
  match k_comms k !! c with
  | Some comm =>
      let '(ρ, display_id) := on_msg comm in
      match content ← subscript msg "content"; s ← subscript content "data";
            to_display ρ s with
      | Ok obj => display_update display_id obj k
      | Raise _ => k
      end
  | None => k
  end.
End Renderer.

(** ** What the expressions and the transforms mean

    The rewriter is compared with the evaluation of the transforms on
    materialized data through a meaning of both in one algebra of tables.
    The cells of a table, the comparison of a cell with a JSON literal and
    the reductions behind the aggregate names belong to the database and to
    the Vega runtime; they are parameters. *)

Section Semantics.
Variable cell : Type.
Context `{EqDecision cell}.
#[local] Abbreviation row := (gmap string cell).

(** The rows of the tables of the database. *)
Variable database : string → list row.
(** A cell (absent when the row has no such column) against a literal. *)
Variable compare : cmpop → option cell → json → bool.
(** The reduction with a given name, of a column and of whole rows. *)
Variable reduce_column : string → list (option cell) → cell.
Variable reduce_rows : string → list row → cell.

(** *** Tables *)

(** A measure: the name of the output column, the name of the reduction,
    and the column it reduces (the whole rows when [None]). *)
Definition measure : Type := string * string * option string.

Definition measure_value (m : measure) (rows : list row) : string * cell :=
  let '(as_, op, field) := m in
  (as_, match field with
        | Some f => reduce_column op ((λ r : row, r !! f) <$> rows)
        | None => reduce_rows op rows
        end).

Definition group_key (by_ : list string) (r : row) : list (option cell) :=
  (λ f, r !! f) <$> by_.

Definition key_columns (by_ : list string) (key : list (option cell))
  : list (string * cell) :=
  omap (λ fv : string * option cell, (λ v, (fv.1, v)) <$> fv.2) (zip by_ key).

(** One row of measures over all the rows. *)
Definition aggregate_all (ms : list measure) (rows : list row) : list row :=
  [list_to_map ((λ m, measure_value m rows) <$> ms)].

(** One row per group: the grouping columns, then the measures over the
    rows of the group; the groups come in the order of their last row. *)
Definition aggregate_by (by_ : list string) (ms : list measure)
    (rows : list row) : list row :=
  (λ key,
     list_to_map
       (key_columns by_ key ++
        ((λ m, measure_value m (filter (λ r, group_key by_ r = key) rows)) <$> ms)))
  <$> remove_dups (group_key by_ <$> rows).

(** The rows that pass every predicate. *)
Definition select (ps : list (row → bool)) (rows : list row) : list row :=
  filter (λ r, forallb (λ p, p r) ps = true) rows.

(** *** Expressions *)

Definition as_string (v : json) : option string :=
  match v with
  | JStr s => Some s
  | _ => None
  end.

Definition as_strings (v : json) : option (list string) :=
  match v with
  | JList l => mapM as_string l
  | _ => None
  end.

(** [column op literal], the column looked up by name in the row. *)
Definition eval_pred (p : Expr) : option (row → bool) :=
  match p with
  | ECompare op (EGetitem _ (JStr f)) v => Some (λ r, compare op (r !! f) v)
  | _ => None
  end.

(** [table[field].op().name(as)] and [table.op().name(as)]. *)
Definition eval_metric (m : Expr) : option measure :=
  match m with
  | EName (ECall e op) (JStr as_) =>
      match e with
      | EGetitem _ (JStr f) => Some (as_, op, Some f)
      | EGetitem _ _ => None
      | _ => Some (as_, op, None)
      end
  | _ => None
  end.

(** Modelled from the spec: the rows a database returns for an expression
    are computed by ibis and the database, outside this module.  A filter
    keeps the rows that pass all its predicates, an aggregate of a grouped
    table has one row per group, an aggregate of a table has one row.
    Column references are resolved by name in the rows at hand.  A grouped
    table alone, a column and a scalar have no rows. *)
Fixpoint execute (e : Expr) : option (list row) :=
  match e with
  | ETable name => Some (database name)
  | EFilter e preds =>
      rows ← execute e;
      ps ← mapM eval_pred preds;
      Some (select ps rows)
  | EAggregate e metrics =>
      ms ← mapM eval_metric metrics;
      match e with
      | EGroupby e by_ =>
          rows ← execute e;
          by_ ← as_strings by_;
          Some (aggregate_by by_ ms rows)
      | _ =>
          rows ← execute e;
          Some (aggregate_all ms rows)
      end
  | _ => None
  end.

(** *** Vega-Lite transforms *)

(** The field predicates with one of range, equal, gt, lt, lte, gte. *)
Inductive vl_predicate :=
| PRange (min max : json)
| PEqual (v : json)
| PGt (v : json)
| PLt (v : json)
| PLte (v : json)
| PGte (v : json).

(** A record [{op, as}] or [{op, field, as}] of an aggregate list. *)
Record vl_aggregate := VlAggregate {
  agg_op : string;
  agg_field : option string;
  agg_as : string;
}.

(** The transforms the rewriter has a rule for. *)
Inductive vl_transform :=
| VlFilter (field : string) (p : vl_predicate)
| VlAggregateBy (groupby : option (list string)) (aggregate : list vl_aggregate).

Definition predicate_to_dict (field : string) (p : vl_predicate) : dict :=
  match p with
  | PRange min max => {[ "field" := JStr field; "range" := JList [min; max] ]}
  | PEqual v => {[ "field" := JStr field; "equal" := v ]}
  | PGt v => {[ "field" := JStr field; "gt" := v ]}
  | PLt v => {[ "field" := JStr field; "lt" := v ]}
  | PLte v => {[ "field" := JStr field; "lte" := v ]}
  | PGte v => {[ "field" := JStr field; "gte" := v ]}
  end.

Definition aggregate_to_json (a : vl_aggregate) : json :=
  let d : dict := {[ "op" := JStr (agg_op a); "as" := JStr (agg_as a) ]} in
  JDict match agg_field a with
        | Some f => <["field" := JStr f]> d
        | None => d
        end.

(** The JSON of a transform, as it stands in [spec["transform"]]. *)
Definition transform_to_json (t : vl_transform) : json :=
  match t with
  | VlFilter field p => JDict {[ "filter" := JDict (predicate_to_dict field p) ]}
  | VlAggregateBy groupby aggregate =>
      let d : dict := {[ "aggregate" := JList (aggregate_to_json <$> aggregate) ]} in
      JDict match groupby with
            | Some by_ => <["groupby" := JList (JStr <$> by_)]> d
            | None => d
            end
  end.

(** A range is inclusive on both bounds; equal, gt, lt, lte and gte are
    [==], [>], [<], [<=] and [>=]. *)
Definition vl_test (p : vl_predicate) (x : option cell) : bool :=
  match p with
  | PRange min max => compare CmpGe x min && compare CmpLe x max
  | PEqual v => compare CmpEq x v
  | PGt v => compare CmpGt x v
  | PLt v => compare CmpLt x v
  | PLte v => compare CmpLe x v
  | PGte v => compare CmpGe x v
  end.

(** The op is applied to the named field, or to the whole rows when there
    is no field; the result column is named by [as]. *)
Definition vl_measure (a : vl_aggregate) : measure :=
  (agg_as a, agg_op a, agg_field a).

(** The transform applied to materialized data. *)
Definition vl_apply (t : vl_transform) (rows : list row) : list row :=
  match t with
  | VlFilter field p => filter (λ r : row, vl_test p (r !! field) = true) rows
  | VlAggregateBy groupby aggregate =>
      match groupby with
      | Some (f :: by_) => aggregate_by (f :: by_) (vl_measure <$> aggregate) rows
      | _ => aggregate_all (vl_measure <$> aggregate) rows
      end
  end.


(** *** The ibis operations of a transform *)

Definition predicate_exprs (field_expr : Expr) (p : vl_predicate) : list Expr :=
  match p with
  | PRange min max =>
      [ECompare CmpGe field_expr min; ECompare CmpLe field_expr max]
  | PEqual v => [ECompare CmpEq field_expr v]
  | PGt v => [ECompare CmpGt field_expr v]
  | PLt v => [ECompare CmpLt field_expr v]
  | PLte v => [ECompare CmpLe field_expr v]
  | PGte v => [ECompare CmpGe field_expr v]
  end.

Definition aggregate_expr (table : Expr) (a : vl_aggregate) : Expr :=
  EName (ECall match agg_field a with
               | Some f => EGetitem table (JStr f)
               | None => table
               end
               (translate_op (agg_op a)))
        (JStr (agg_as a)).

(** The expression a transform makes of [expr], its columns and measures
    being taken from [original_expr]. *)
Definition pushdown (original_expr expr : Expr) (t : vl_transform) : Expr :=
  match t with
  | VlFilter field p =>
      EFilter expr (predicate_exprs (EGetitem original_expr (JStr field)) p)
  | VlAggregateBy groupby aggregate =>
      EAggregate match groupby with
                 | Some (f :: by_) => EGroupby expr (JList (JStr <$> f :: by_))
                 | _ => expr
                 end
                 (aggregate_expr original_expr <$> aggregate)
  end.
End Semantics.

Arguments measure_value {cell} reduce_column reduce_rows m rows.
Arguments group_key {cell} by_ r.
Arguments key_columns {cell} by_ key.
Arguments aggregate_all {cell} reduce_column reduce_rows ms rows.
Arguments aggregate_by {cell _} reduce_column reduce_rows by_ ms rows.
Arguments select {cell} ps rows.
Arguments eval_pred {cell} compare p.
Arguments execute {cell _} database compare reduce_column reduce_rows e.
Arguments vl_test {cell} compare p x.
Arguments vl_apply {cell _} compare reduce_column reduce_rows t rows.

(** ** A sample database

    A table of flights with integer cells, used to run the definitions. *)

Module Sample.
(** The columns of the table an expression filters or groups; an
    aggregate has the columns its metrics name. *)
Fixpoint columns (e : Expr) : list string :=
  match e with
  | ETable _ => ["carrier"; "delay"]
  | EFilter e _ => columns e
  | EGroupby e _ => columns e
  | EAggregate _ metrics =>
      omap (λ m, match m with EName _ (JStr s) => Some s | _ => None end) metrics
  | _ => []
  end.

Definition flights : Expr := ETable "flights".

Definition database (name : string) : list (gmap string Z) :=
  if String.eqb name "flights" then
    [ {[ "carrier" := 1; "delay" := 10 ]};
      {[ "carrier" := 2; "delay" := 25 ]};
      {[ "carrier" := 1; "delay" := 40 ]} ]%Z
  else [].

(** Integer cells against integer literals; an absent cell or another
    literal compares false. *)
Definition compare (op : cmpop) (x : option Z) (v : json) : bool :=
  match x, v with
  | Some x, JNum v =>
      match op with
      | CmpGe => (v <=? x)%Z
      | CmpLe => (x <=? v)%Z
      | CmpEq => (x =? v)%Z
      | CmpGt => (v <? x)%Z
      | CmpLt => (x <? v)%Z
      end
  | _, _ => false
  end.

Definition sum (xs : list (option Z)) : Z :=
  foldr (λ x acc, default 0 x + acc)%Z 0%Z xs.

(** count, sum, and the mean rounded down under both of its names. *)
Definition reduce_column (op : string) (xs : list (option Z)) : Z :=
  if String.eqb op "count" then Z.of_nat (length xs)
  else if String.eqb op "sum" then sum xs
  else if String.eqb op "mean" then (sum xs / Z.of_nat (length xs))%Z
  else if String.eqb op "average" then (sum xs / Z.of_nat (length xs))%Z
  else 0%Z.

Definition reduce_rows (op : string) (rows : list (gmap string Z)) : Z :=
  if String.eqb op "count" then Z.of_nat (length rows) else 0%Z.

(** The mean delay and the number of flights per carrier. *)
Definition by_carrier : vl_transform :=
  VlAggregateBy (Some ["carrier"])
    [VlAggregate "average" (Some "delay") "mean_delay";
     VlAggregate "count" None "n"].

Definition by_carrier_spec : dict :=
  {[ "mark" := JStr "bar";
     "transform" := JList [transform_to_json by_carrier] ]}.

(** The flights with a delay between 10 and 25. *)
Definition short_delay : vl_transform :=
  VlFilter "delay" (PRange (JNum 10) (JNum 25)).

(** A selection filter: a dict without a "field" key. *)
Definition brush : dict := {[ "filter" := JDict {[ "selection" := JStr "brush" ]} ]}.

Definition brush_spec : dict := {[ "transform" := JList [JDict brush] ]}.

(** An aggregate grouped by a field the table does not have. *)
Definition by_origin : dict :=
  {[ "groupby" := JList [JStr "origin"];
     "aggregate" := JList [JDict {[ "op" := JStr "count"; "as" := JStr "n" ]}] ]}.

Definition by_origin_spec : dict := {[ "transform" := JList [JDict by_origin] ]}.

(** A filter next to keys the rewriter has no rule for. *)
Definition late_spec : dict :=
  {[ "mark" := JStr "bar";
     "transform" :=
       JList [JDict {[ "filter" := JDict {[ "field" := JStr "delay";
                                             "gt" := JNum 20 ]};
                       "calculate" := JStr "datum.delay / 60";
                       "as" := JStr "hours" ]}] ]}.

Definition late : Expr :=
  EFilter flights [ECompare CmpGt (EGetitem flights (JStr "delay")) (JNum 20)].

Definition late_spec' : dict :=
  {[ "mark" := JStr "bar";
     "transform" :=
       JList [JDict {[ "calculate" := JStr "datum.delay / 60";
                       "as" := JStr "hours" ]}] ]}.

(** The frame the patched constructor makes of [flights], and the globals
    after the data transformer has seen it. *)
Definition frame : DataFrame :=
  Frame ["carrier"; "delay"] ["int64"; "int64"] [] (Some flights).

Definition registered : globals := (ibis_transformation (PFrame frame) initial_globals).2.

Definition chart_spec : dict :=
  {[ "data" := JDict {[ "name" := JStr "ibis_0" ]}; "mark" := JStr "bar" ]}.

Definition schema (e : Expr) : list (string * string) :=
  (λ c, (c, "int64")) <$> columns e.

(** A constructor that returns the arguments it was called with. *)
Definition echo_init : init_fn (list pyobj * gmap string pyobj) :=
  λ _ args kwargs, Ok (args, kwargs).

(** A notebook with one connection, a database that answers every query
    with no rows, and nothing displayed yet. *)
Definition get_client (e : Expr) : unit := tt.
Definition compile_sql (e : Expr) : string := "SELECT * FROM flights".
Definition execute_to_json (e : Expr) : json := JList [].
Definition format (obj : DisplayObject unit) : json := JNull.

Definition renderer :=
  ibis_renderer columns unit get_client compile_sql execute_to_json format.

(** The kernel after the data transformer has registered [flights], and
    the kernel of a notebook where the data transformer is not enabled. *)
Definition ready : kernel unit := Kernel unit registered [] [].

(** The spec the front end sends back, and its message. *)
Definition extracted : dict :=
  {[ "data" := JDict {[ "name" := JStr "ibis_0" ]}; "mark" := JStr "bar";
     "transform" := JList [transform_to_json short_delay] ]}.

Definition message : dict :=
  {[ "content" := JDict {[ "data" := JDict extracted ]} ]}.

(** Transforms the rewriter has no rule for, and an empty groupby list. *)
Definition other_transforms : list dict :=
  [ {[ "calculate" := JStr "datum.delay / 60"; "as" := JStr "hours" ]};
    {[ "groupby" := JList [] ]} ].

Definition other_transforms_spec : dict :=
  {[ "mark" := JStr "bar"; "transform" := JList (JDict <$> other_transforms) ]}.






(** A chart with inline data. *)
Definition inline_spec : dict :=
  {[ "data" := JDict {[ "values" := JList [] ]}; "mark" := JStr "bar" ]}.

(** The globals after [flights] has been retrieved, and after another
    registration. *)
Definition retrieved : globals := Globals 1 ∅.

Definition registered_again : globals := (ibis_transformation (PFrame frame) retrieved).2.

(** The kernel after the renderer has run with extract=True, the comm it has
    opened, and the display of the spec the front end sends back. *)
Definition waiting : kernel unit := (renderer chart_spec "json" true true ready).2.

Definition waiting_comm : Comm :=
  MkComm COMM_ID (JDict chart_spec) (Env "json" true flights CompatJSON, 0).

Definition chart : DisplayObject unit :=
  Display unit CompatJSON
    (DJson unit (JDict {[ "data" := JDict {[ "name" := JStr "ibis_0" ]};
                          "mark" := JStr "bar" ]})).
End Sample.

(** * Properties *)

(** ** translate_op *)

(** C10.  translate_op sends "average" to "mean" and every other string,
    "mean" included, to itself; so applying it twice is applying it once. *)
Theorem translate_op_idempotent (op : string) :
  translate_op op = (if String.eqb op "average" then "mean" else op) ∧
  translate_op "mean" = "mean" ∧
  translate_op (translate_op op) = translate_op op.
Proof.
  assert (Hdef : ∀ s, translate_op s = if String.eqb s "average" then "mean" else s).
  { intros s. unfold translate_op.
    destruct (String.eqb_spec s "mean") as [->|_]; [reflexivity|].
    reflexivity. }
  split; [apply Hdef|]. split; [reflexivity|].
  rewrite !Hdef.
  destruct (String.eqb_spec op "average") as [->|Ha]; [reflexivity|].
  destruct (String.eqb_spec op "average"); [congruence|reflexivity].
Qed.

(** ** The rewriter *)

Lemma truthy_dict (d : dict) : truthy (JDict d) = true ↔ d ≠ ∅.
Proof.
  simpl. destruct (map_to_list d) as [|kv l] eqn:Hl.
  - apply map_to_list_empty_iff in Hl. split; [discriminate | congruence].
  - split; [|reflexivity]. intros _ ->. by rewrite map_to_list_empty in Hl.
Qed.

Lemma truthy_dict_lookup (d : dict) k v : d !! k = Some v → truthy (JDict d) = true.
Proof. intros Hk. apply truthy_dict. intros ->. by rewrite lookup_empty in Hk. Qed.

Lemma result_bind_Ok {A B} (f : A → result B) (m : result A) (b : B) :
  m ≫= f = Ok b → ∃ a, m = Ok a ∧ f a = Ok b.
Proof. destruct m as [a|e]; [eauto | discriminate]. Qed.

Ltac result_simpl :=
  cbn [mbind result_bind mret result_ret from_option id py_iter fst snd].

Section RewriterProperties.
Variable columns : Expr → list string.

Lemma transform_loop_cons original_expr expr (t : json) (ts : list json) :
  transform_loop columns original_expr expr (t :: ts)
  = '(e1, t') ← transform_step columns original_expr expr t;
    '(e2, ts') ← transform_loop columns original_expr e1 ts;
    Ok (e2, t' :: ts').
Proof. reflexivity. Qed.

Lemma forallb_field_in_columns expr (fields : list string) :
  forallb (field_in_columns columns expr) (JStr <$> fields) = true
  ↔ ∀ f, f ∈ fields → f ∈ columns expr.
Proof.
  induction fields as [|x fields IH]; simpl.
  - split; [|done]. intros _ f Hf. by apply elem_of_nil in Hf.
  - rewrite andb_true_iff, IH, bool_decide_eq_true. split.
    + intros [Hx Hrest] f [->|Hf]%elem_of_cons; auto.
    + intros Hall. split; [|intros f Hf]; apply Hall; [left | by right].
Qed.

Lemma transform_step_unknown_field original_expr expr (transform : dict)
    (groupby : list string) (f : string) :
  transform !! "groupby" = Some (JList (JStr <$> groupby)) →
  f ∈ groupby → f ∉ columns expr →
  transform_step columns original_expr expr (JDict transform)
  = Ok (expr, JDict transform).
Proof.
  intros Hg Hf Hcol. unfold transform_step, dict_pop. rewrite Hg.
  cbn [from_option id]. unfold py_iter, mbind, result_bind.
  assert (truthy (JList (JStr <$> groupby)) = true) as ->.
  { destruct groupby; [by apply elem_of_nil in Hf | done]. }
  destruct (forallb _ _) eqn:Hall; simpl.
  - destruct Hcol. revert f Hf. by apply forallb_field_in_columns.
  - by rewrite insert_delete_eq, insert_id.
Qed.

Lemma transform_loop_app original_expr expr (ts1 ts2 : list json) :
  transform_loop columns original_expr expr (ts1 ++ ts2)
  = '(e1, ts1') ← transform_loop columns original_expr expr ts1;
    '(e2, ts2') ← transform_loop columns original_expr e1 ts2;
    Ok (e2, ts1' ++ ts2').
Proof.
  revert expr. induction ts1 as [|t ts1 IH]; intros expr; simpl.
  - by destruct (transform_loop _ _ _ ts2) as [[e2 ts2']|].
  - destruct (transform_step _ _ _ t) as [[e t']|]; [simpl|done].
    rewrite IH. destruct (transform_loop _ _ _ ts1) as [[e1 ts1']|]; [simpl|done].
    by destruct (transform_loop _ _ _ ts2) as [[e2 ts2']|].
Qed.

(** C3.  A transform whose groupby list names a field that is not a column
    of the expression reached so far is skipped whole: the iteration
    returns the expression and the transform as they were, the transform
    (with its groupby, aggregate and filter keys) stays in the spec, and
    the returned expression is the one the spec without that transform
    gives. *)
Theorem unknown_groupby_field_skips_transform (expr : Expr) (spec : dict)
    (before after : list json) (transform : dict) (groupby : list string)
    (f : string) (e1 e2 : Expr) (before' after' : list json) :
  spec !! "transform" = Some (JList (before ++ JDict transform :: after)) →
  transform !! "groupby" = Some (JList (JStr <$> groupby)) →
  transform_loop columns expr expr before = Ok (e1, before') →
  f ∈ groupby → f ∉ columns e1 →
  transform_loop columns expr e1 after = Ok (e2, after') →
  transform_step columns expr e1 (JDict transform) = Ok (e1, JDict transform) ∧
  update_spec columns expr spec
  = Ok (e2, <["transform" :=
                JList (filter (λ i, truthy i = true) before'
                       ++ JDict transform
                       :: filter (λ i, truthy i = true) after')]> spec) ∧
  fst <$> update_spec columns expr (<["transform" := JList (before ++ after)]> spec)
  = Ok e2.
Proof.
  intros Hspec Hg Hbefore Hf Hcol Hafter.
  pose proof (transform_step_unknown_field expr e1 transform groupby f Hg Hf Hcol)
    as Hstep.
  split; [exact Hstep|]. split.
  - unfold update_spec. rewrite Hspec. result_simpl.
    rewrite transform_loop_app, Hbefore. result_simpl.
    rewrite transform_loop_cons, Hstep. result_simpl.
    rewrite Hafter. result_simpl.
    rewrite filter_app, filter_cons_True
      by (by eapply truthy_dict_lookup).
    by destruct (filter _ before').
  - unfold update_spec. rewrite lookup_insert_eq. result_simpl.
    rewrite transform_loop_app, Hbefore. result_simpl.
    rewrite Hafter. result_simpl.
    by destruct (truthy _).
Qed.

(** *** Filters the rewriter has no rule for *)

(** An iteration on a transform without groupby and aggregate keys is the
    filter part alone. *)
Lemma transform_step_filter_only original_expr expr (transform : dict) :
  transform !! "groupby" = None → transform !! "aggregate" = None →
  transform_step columns original_expr expr (JDict transform)
  = '(e, t) ← step_filter original_expr expr
                (default JNull (transform !! "filter"))
                (delete "filter" (delete "aggregate" (delete "groupby" transform)));
    Ok (e, JDict t).
Proof.
  intros Hg Ha. unfold transform_step, step_aggregate, dict_pop.
  rewrite Hg. cbn [from_option truthy].
  rewrite !lookup_delete_ne, Ha by done. reflexivity.
Qed.


(** C2.  A filter that is a dict without a "field" key (a selection
    filter, a composition with and, or, not) makes the iteration and so
    the call raise KeyError: the filter is subscripted with "field" before
    the shape of the predicate is looked at.  A filter that is an
    expression string raises TypeError for the same reason. *)
Theorem filter_without_field_raises (expr : Expr) (spec : dict)
    (before after : list json) (transform : dict) (filter_ : json)
    (e1 : Expr) (before' : list json) :
  spec !! "transform" = Some (JList (before ++ JDict transform :: after)) →
  transform_loop columns expr expr before = Ok (e1, before') →
  transform !! "groupby" = None → transform !! "aggregate" = None →
  transform !! "filter" = Some filter_ →
  (∀ f : dict, filter_ = JDict f → f ≠ ∅ → f !! "field" = None →
     update_spec columns expr spec = Raise (KeyError "field")) ∧
  (∀ s : string, filter_ = JStr s → s ≠ "" →
     update_spec columns expr spec = Raise TypeError).
Proof.
  intros Hspec Hbefore Hg Ha Hfilter.
  assert (∀ e, step_filter expr e1 filter_
                 (delete "filter" (delete "aggregate" (delete "groupby" transform)))
               = Raise e →
               update_spec columns expr spec = Raise e) as Hupd.
  { intros e Hstep. unfold update_spec. rewrite Hspec. result_simpl.
    rewrite transform_loop_app, Hbefore. result_simpl.
    rewrite transform_loop_cons, transform_step_filter_only, Hfilter by done.
    cbn [from_option id]. by rewrite Hstep. }
  split.
  - intros f -> Hne Hfield. apply Hupd. unfold step_filter, dict_get.
    by rewrite (proj2 (truthy_dict f) Hne), Hfield.
  - intros s -> Hne. apply Hupd. unfold step_filter.
    assert (truthy (JStr s) = true) as ->; [|done].
    simpl. by destruct (String.eqb_spec s "").
Qed.

(** *** What a successful call leaves of the spec *)

Lemma step_filter_frame original_expr expr filter_ (t : dict) e' t' k :
  step_filter original_expr expr filter_ t = Ok (e', t') →
  k ≠ "filter" → t' !! k = t !! k.
Proof.
  unfold step_filter. intros Hstep Hk.
  destruct (truthy filter_); [|by inversion Hstep].
  destruct filter_ as [| | | | |f]; try discriminate.
  apply result_bind_Ok in Hstep as (field & _ & Hstep).
  apply result_bind_Ok in Hstep as (preds & _ & Hstep).
  destruct preds; inversion Hstep; subst; [done|].
  by rewrite lookup_insert_ne.
Qed.

Lemma step_aggregate_frame original_expr expr (t : dict) e' t' k :
  step_aggregate original_expr expr t = Ok (e', t') →
  k ≠ "aggregate" → k ≠ "filter" → t' !! k = t !! k.
Proof.
  unfold step_aggregate, dict_pop. intros Hstep Ha Hf.
  apply result_bind_Ok in Hstep as (e1 & _ & Hstep).
  apply step_filter_frame with (k := k) in Hstep; [|done].
  by rewrite Hstep, !lookup_delete_ne.
Qed.

Lemma transform_step_frame original_expr expr (t : json) e' (t' : json) :
  transform_step columns original_expr expr t = Ok (e', t') →
  ∃ d d' : dict, t = JDict d ∧ t' = JDict d' ∧ same_other_keys d d'.
Proof.
  intros Hstep. destruct t as [| | | | |d]; try discriminate.
  unfold transform_step, dict_pop in Hstep.
  assert (∀ k, k ∉ ["groupby"; "aggregate"; "filter"] →
               k ≠ "groupby" ∧ k ≠ "aggregate" ∧ k ≠ "filter") as Hkeys.
  { intros k Hk. repeat split; intros ->; apply Hk; set_solver. }
  destruct (truthy _).
  - apply result_bind_Ok in Hstep as (fields & _ & Hstep).
    destruct (forallb _ _).
    + apply result_bind_Ok in Hstep as ([e1 d1] & Hagg & Hstep).
      inversion Hstep; subst. exists d, d1. split_and!; [done..|].
      intros k (Hg & Ha & Hf)%Hkeys.
      rewrite (step_aggregate_frame _ _ _ _ _ k Hagg) by done.
      by rewrite lookup_delete_ne.
    + inversion Hstep; subst. eexists d, _. split_and!; [done..|].
      intros k (Hg & Ha & Hf)%Hkeys.
      by rewrite lookup_insert_ne, lookup_delete_ne.
  - apply result_bind_Ok in Hstep as ([e1 d1] & Hagg & Hstep).
    inversion Hstep; subst. exists d, d1. split_and!; [done..|].
    intros k (Hg & Ha & Hf)%Hkeys.
    rewrite (step_aggregate_frame _ _ _ _ _ k Hagg) by done.
    by rewrite lookup_delete_ne.
Qed.

Lemma transform_loop_frame original_expr expr (ts : list json) e' (ts' : list json) :
  transform_loop columns original_expr expr ts = Ok (e', ts') →
  ∃ before after : list dict,
    ts = JDict <$> before ∧ ts' = JDict <$> after ∧
    Forall2 same_other_keys before after.
Proof.
  revert expr e' ts'. induction ts as [|t ts IH]; intros expr e' ts' Hloop.
  - inversion Hloop; subst. by exists [], [].
  - rewrite transform_loop_cons in Hloop.
    apply result_bind_Ok in Hloop as ([e1 t'] & Hstep & Hloop).
    apply result_bind_Ok in Hloop as ([e2 rest] & Hrest & Hloop).
    inversion Hloop; subst.
    apply transform_step_frame in Hstep as (d & d' & -> & -> & Hd).
    apply IH in Hrest as (before & after & -> & -> & Hall).
    exists (d :: before), (d' :: after). split_and!; [done..|].
    by constructor.
Qed.

Lemma filter_truthy_dicts (ds : list dict) :
  filter (λ i, truthy i = true) (JDict <$> ds)
  = JDict <$> filter (λ d : dict, d ≠ ∅) ds.
Proof.
  induction ds as [|d ds IH]; [done|].
  rewrite fmap_cons. destruct (decide (d = ∅)) as [->|Hd].
  - rewrite filter_cons_False, filter_cons_False; [done| |].
    + by intros [].
    + rewrite truthy_dict. by intros [].
  - rewrite filter_cons_True, filter_cons_True, fmap_cons, IH; [done..|].
    by apply truthy_dict.
Qed.

Lemma update_spec_inv (expr : Expr) (spec : dict) expr' (spec' : dict) :
  update_spec columns expr spec = Ok (expr', spec') →
  ∃ before after : list dict,
    py_iter (default (JList []) (spec !! "transform")) = Ok (JDict <$> before) ∧
    transform_loop columns expr expr (JDict <$> before)
    = Ok (expr', JDict <$> after) ∧
    Forall2 same_other_keys before after ∧
    spec' = match filter (λ d : dict, d ≠ ∅) after with
            | [] => delete "transform" spec
            | kept => <["transform" := JList (JDict <$> kept)]> spec
            end.
Proof.
  unfold update_spec. intros Hupd.
  apply result_bind_Ok in Hupd as (ts & Hiter & Hupd).
  apply result_bind_Ok in Hupd as ([e ts'] & Hloop & Hupd).
  destruct (transform_loop_frame _ _ _ _ _ Hloop)
    as (before & after & -> & -> & Hall).
  exists before, after.
  rewrite filter_truthy_dicts in Hupd.
  destruct (filter _ after) as [|d kept]; simpl in Hupd.
  - inversion Hupd; subst. by rewrite delete_insert_eq.
  - by inversion Hupd; subst.
Qed.

(** C6.  A call of update_spec that returns leaves every key of the spec
    other than "transform" as it was; the entries of the transform list
    keep, one for one, every key other than "groupby", "aggregate" and
    "filter"; and the transform list afterwards is the list of these
    entries without the empty ones, the key being absent when none is
    left. *)
Theorem update_spec_frame (expr : Expr) (spec : dict) (expr' : Expr) (spec' : dict) :
  update_spec columns expr spec = Ok (expr', spec') →
  (∀ k, k ≠ "transform" → spec' !! k = spec !! k) ∧
  ∃ before after : list dict,
    py_iter (default (JList []) (spec !! "transform")) = Ok (JDict <$> before) ∧
    Forall2 same_other_keys before after ∧
    spec' !! "transform"
    = match filter (λ d : dict, d ≠ ∅) after with
      | [] => None
      | kept => Some (JList (JDict <$> kept))
      end.
Proof.
  intros (before & after & Hiter & _ & Hall & ->)%update_spec_inv. split.
  - intros k Hk. destruct (filter _ after).
    + by rewrite lookup_delete_ne.
    + by rewrite lookup_insert_ne.
  - exists before, after. split_and!; [done..|].
    destruct (filter _ after).
    + by rewrite lookup_delete_eq.
    + by rewrite lookup_insert_eq.
Qed.

(** C9.  After a call of update_spec that returns, the spec has a
    "transform" key exactly when some transform entry still has a key; the
    value is then the list of the entries that are not empty; when every
    entry has been emptied the key is gone. *)
Theorem update_spec_transform_key (expr : Expr) (spec : dict) (expr' : Expr)
    (spec' : dict) :
  update_spec columns expr spec = Ok (expr', spec') →
  ∃ before after : list dict,
    py_iter (default (JList []) (spec !! "transform")) = Ok (JDict <$> before) ∧
    transform_loop columns expr expr (JDict <$> before)
    = Ok (expr', JDict <$> after) ∧
    (is_Some (spec' !! "transform") ↔ ∃ t : dict, t ∈ after ∧ t ≠ ∅) ∧
    (∀ v, spec' !! "transform" = Some v →
          v = JList (JDict <$> filter (λ d : dict, d ≠ ∅) after)) ∧
    ((∀ t : dict, t ∈ after → t = ∅) → spec' !! "transform" = None).
Proof.
  intros (before & after & Hiter & Hloop & _ & ->)%update_spec_inv.
  exists before, after. split_and!; [done..| | |].
  - destruct (filter _ after) as [|d kept] eqn:Hkept.
    + rewrite lookup_delete_eq. split; [by intros [? ?]|].
      intros (t & Ht & Hne).
      assert (t ∈ filter (λ d : dict, d ≠ ∅) after) as Hin
        by by apply list_elem_of_filter.
      rewrite Hkept in Hin. by apply elem_of_nil in Hin.
    + rewrite lookup_insert_eq. split; [|by eauto].
      intros _. exists d.
      assert (d ∈ filter (λ d : dict, d ≠ ∅) after) as Hin
        by (rewrite Hkept; left).
      apply list_elem_of_filter in Hin as [? ?]. done.
  - intros v. destruct (filter _ after).
    + by rewrite lookup_delete_eq.
    + rewrite lookup_insert_eq. by intros [= <-].
  - intros Hempty. destruct (filter _ after) as [|d kept] eqn:Hkept.
    + by rewrite lookup_delete_eq.
    + assert (d ∈ filter (λ d : dict, d ≠ ∅) after) as Hin
        by (rewrite Hkept; left).
      apply list_elem_of_filter in Hin as [Hne Hin]. by apply Hempty in Hin.
Qed.
End RewriterProperties.

(** ** The rewrite rules against the transforms on materialized data *)



Section Pushdown.
Variable columns : Expr → list string.
Context {cell : Type} `{EqDecision cell}.
Variable database : string → list (gmap string cell).
Variable compare : cmpop → option cell → json → bool.
Variable reduce_column : string → list (option cell) → cell.
Variable reduce_rows : string → list (gmap string cell) → cell.

(** Vega-Lite's "average" is its "mean". *)
Hypothesis average_column :
  ∀ xs, reduce_column "average" xs = reduce_column "mean" xs.
Hypothesis average_rows :
  ∀ rows, reduce_rows "average" rows = reduce_rows "mean" rows.

#[local] Abbreviation rows_of :=
  (execute database compare reduce_column reduce_rows).
#[local] Abbreviation client_rows := (vl_apply compare reduce_column reduce_rows).
#[local] Abbreviation value_of := (measure_value reduce_column reduce_rows).












End Pushdown.

(** ** The registry of expressions *)

Lemma registry_pop_state (name : json) (g : globals) :
  (registry_pop name g).2 = g ∨
  ∃ s, (registry_pop name g).2 = Globals (_i g) (delete s (_name_to_ibis g)).
Proof.
  destruct name as [| | |s| |]; simpl; auto.
  destruct (_name_to_ibis g !! s); simpl; eauto.
Qed.

Lemma retrieve_expr_state (spec : dict) (g : globals) :
  (retrieve_expr spec g).2 = g ∨
  ∃ s, (retrieve_expr spec g).2 = Globals (_i g) (delete s (_name_to_ibis g)).
Proof.
  unfold retrieve_expr. destruct (except_KeyError _) as [name|e]; [|by left].
  pose proof (registry_pop_state name g) as Hpop.
  by destruct (registry_pop name g) as [r g'].
Qed.

(** Every name in the registry was generated from a smaller counter. *)
Lemma registry_names (g : globals) :
  reachable g →
  ∀ name, is_Some (_name_to_ibis g !! name) →
          ∃ j, j < _i g ∧ name = "ibis_" +:+ pretty j.
Proof.
  induction 1 as [|data g Hg IH|spec g Hg IH]; intros name Hname.
  - simpl in Hname. rewrite lookup_empty in Hname. by destruct Hname.
  - destruct data as [| |df|]; try by apply IH.
    simpl in *. destruct (df_ibis df) as [expr|]; simpl in *.
    + destruct (decide ("ibis_" +:+ pretty (_i g) = name)) as [<-|Hne].
      * exists (_i g). split; [lia|done].
      * rewrite lookup_insert_ne in Hname by done.
        destruct (IH _ Hname) as (j & Hj & ->). exists j. split; [lia|done].
    + destruct (IH _ Hname) as (j & Hj & ->). exists j. split; [lia|done].
  - destruct (retrieve_expr_state spec g) as [Heq|[s Heq]];
      rewrite Heq in Hname |- *; [by apply IH|].
    simpl in *. destruct (decide (s = name)) as [->|Hne].
    + rewrite lookup_delete_eq in Hname. by destruct Hname.
    + rewrite lookup_delete_ne in Hname by done. by apply IH.
Qed.


(** C8.  retrieve_expr looks the name up under spec["data"]["name"], in
    spec["spec"] when the spec has a "spec" key.  A name that is in the
    dictionary gives its expression and is removed, the rest of the
    dictionary and the counter staying as they were, so that a second
    retrieval raises RuntimeError; a name that is not there raises
    RuntimeError and leaves the globals as they were. *)
Theorem retrieve_expr_pops (spec inner data : dict) (name : string) (g : globals) :
  (spec !! "spec" = Some (JDict inner) ∨ spec !! "spec" = None ∧ inner = spec) →
  inner !! "data" = Some (JDict data) →
  data !! "name" = Some (JStr name) →
  (∀ expr, _name_to_ibis g !! name = Some expr →
     let g' := Globals (_i g) (delete name (_name_to_ibis g)) in
     retrieve_expr spec g = (Ok expr, g') ∧
     retrieve_expr spec g' = (Raise RuntimeError, g')) ∧
  (_name_to_ibis g !! name = None →
     retrieve_expr spec g = (Raise RuntimeError, g)).
Proof.
  intros Hspec Hdata Hname.
  assert (∀ g, retrieve_expr spec g
               = let '(r, g) := registry_pop (JStr name) g in (except_KeyError r, g))
    as Hretrieve.
  { intros g0. unfold retrieve_expr, has_key.
    destruct Hspec as [->|[-> ->]]; simpl; unfold dict_get;
      rewrite Hdata; simpl; unfold dict_get; by rewrite Hname. }
  split.
  - intros expr Hexpr g'. subst g'. rewrite !Hretrieve. simpl.
    by rewrite Hexpr, lookup_delete_eq.
  - intros Hnone. rewrite Hretrieve. simpl. by rewrite Hnone.
Qed.

(** ** The patched chart constructor *)

Section ChartProperties.
Variable columns : Expr → list string.
Variable schema : Expr → list (string * string).
Variable R : Type.

End ChartProperties.

(** ** The renderer *)

Section RendererProperties.
Variable columns : Expr → list string.
Variable Conn : Type.
Variable get_client : Expr → Conn.
Variable compile_sql : Expr → string.
Variable execute_to_json : Expr → json.
Variable format : DisplayObject Conn → json.

#[local] Abbreviation render :=
  (ibis_renderer columns Conn get_client compile_sql execute_to_json format).
#[local] Abbreviation deliver :=
  (comm_msg columns Conn get_client compile_sql execute_to_json).
#[local] Abbreviation shown :=
  (to_display columns Conn get_client compile_sql execute_to_json).

End RendererProperties.

(** * The properties at work on the sample database *)

Example by_carrier_rows :
  vl_apply Sample.compare Sample.reduce_column Sample.reduce_rows
    Sample.by_carrier (Sample.database "flights")
  = [ {[ "carrier" := 2; "mean_delay" := 25; "n" := 1 ]};
      {[ "carrier" := 1; "mean_delay" := 25; "n" := 2 ]} ]%Z.
Proof. vm_compute. reflexivity. Qed.

Example short_delay_rows :
  execute Sample.database Sample.compare Sample.reduce_column Sample.reduce_rows
    (pushdown Sample.flights Sample.flights Sample.short_delay)
  = Some [ {[ "carrier" := 1; "delay" := 10 ]};
           {[ "carrier" := 2; "delay" := 25 ]} ]%Z.
Proof. vm_compute. reflexivity. Qed.


Lemma filter_without_field_raises_witness :
  update_spec Sample.columns Sample.flights Sample.brush_spec
  = Raise (KeyError "field").
Proof.
  refine (proj1 (filter_without_field_raises Sample.columns Sample.flights
                   Sample.brush_spec [] [] Sample.brush
                   (JDict {[ "selection" := JStr "brush" ]}) Sample.flights []
                   _ _ _ _ _)
            {[ "selection" := JStr "brush" ]} _ _ _); try reflexivity.
  intros Hempty. apply (f_equal (lookup "selection")) in Hempty. discriminate Hempty.
Defined.

Lemma unknown_groupby_field_skips_transform_witness :
  transform_step Sample.columns Sample.flights Sample.flights (JDict Sample.by_origin)
  = Ok (Sample.flights, JDict Sample.by_origin) ∧
  update_spec Sample.columns Sample.flights Sample.by_origin_spec
  = Ok (Sample.flights,
        <["transform" := JList ([] ++ [JDict Sample.by_origin])]> Sample.by_origin_spec) ∧
  fst <$> update_spec Sample.columns Sample.flights
            (<["transform" := JList ([] ++ [])]> Sample.by_origin_spec)
  = Ok Sample.flights.
Proof.
  apply (unknown_groupby_field_skips_transform Sample.columns Sample.flights
           Sample.by_origin_spec [] [] Sample.by_origin ["origin"] "origin"
           Sample.flights Sample.flights [] []).
  - reflexivity.
  - reflexivity.
  - reflexivity.
  - apply (bool_decide_unpack _). reflexivity.
  - apply (proj1 (bool_decide_eq_false _)). reflexivity.
  - reflexivity.
Defined.

Lemma update_spec_frame_witness :
  (∀ k, k ≠ "transform" → Sample.late_spec' !! k = Sample.late_spec !! k) ∧
  ∃ before after : list dict,
    py_iter (default (JList []) (Sample.late_spec !! "transform"))
    = Ok (JDict <$> before) ∧
    Forall2 same_other_keys before after ∧
    Sample.late_spec' !! "transform"
    = match filter (λ d : dict, d ≠ ∅) after with
      | [] => None
      | kept => Some (JList (JDict <$> kept))
      end.
Proof.
  apply (update_spec_frame Sample.columns Sample.flights Sample.late_spec
           Sample.late Sample.late_spec').
  reflexivity.
Defined.

Lemma update_spec_transform_key_witness :
  ∃ before after : list dict,
    py_iter (default (JList []) (Sample.late_spec !! "transform"))
    = Ok (JDict <$> before) ∧
    transform_loop Sample.columns Sample.flights Sample.flights (JDict <$> before)
    = Ok (Sample.late, JDict <$> after) ∧
    (is_Some (Sample.late_spec' !! "transform") ↔ ∃ t : dict, t ∈ after ∧ t ≠ ∅) ∧
    (∀ v, Sample.late_spec' !! "transform" = Some v →
          v = JList (JDict <$> filter (λ d : dict, d ≠ ∅) after)) ∧
    ((∀ t : dict, t ∈ after → t = ∅) → Sample.late_spec' !! "transform" = None).
Proof.
  apply (update_spec_transform_key Sample.columns Sample.flights Sample.late_spec
           Sample.late Sample.late_spec').
  reflexivity.
Defined.

Example fully_rewritten_spec_has_no_transform_key :
  (snd <$> update_spec Sample.columns Sample.flights Sample.by_carrier_spec)
  = Ok {[ "mark" := JStr "bar" ]}.
Proof. vm_compute. reflexivity. Qed.


Example second_name_is_ibis_1 :
  (ibis_transformation (PFrame Sample.frame) Sample.registered).1
  = Ok {[ "name" := JStr "ibis_1" ]}.
Proof. vm_compute. reflexivity. Qed.

Lemma retrieve_expr_pops_witness :
  (∀ expr, _name_to_ibis Sample.registered !! "ibis_0" = Some expr →
     let g' := Globals (_i Sample.registered)
                 (delete "ibis_0" (_name_to_ibis Sample.registered)) in
     retrieve_expr Sample.chart_spec Sample.registered = (Ok expr, g') ∧
     retrieve_expr Sample.chart_spec g' = (Raise RuntimeError, g')) ∧
  (_name_to_ibis Sample.registered !! "ibis_0" = None →
     retrieve_expr Sample.chart_spec Sample.registered
     = (Raise RuntimeError, Sample.registered)).
Proof.
  apply (retrieve_expr_pops Sample.chart_spec Sample.chart_spec
           {[ "name" := JStr "ibis_0" ]} "ibis_0" Sample.registered).
  - right. split; reflexivity.
  - reflexivity.
  - reflexivity.
Defined.

Example retrieve_registered :
  (retrieve_expr Sample.chart_spec Sample.registered).1 = Ok Sample.flights.
Proof. vm_compute. reflexivity. Qed.


Example patched_init_keeps_a_frame :
  monkeypatch_altair Sample.columns Sample.schema _ Sample.echo_init PNone
    [] {[ "data" := PFrame Sample.frame ]}
  = Ok ([], {[ "data" := PFrame Sample.frame ]}).
Proof. vm_compute. reflexivity. Qed.


(** The chart comes with the message: the placeholder gives way to the spec
    without its transform. *)
Example message_replaces_placeholder :
  k_outputs unit
    (comm_msg Sample.columns unit Sample.get_client Sample.compile_sql
       Sample.execute_to_json 0 (JDict Sample.message)
       (Sample.renderer Sample.chart_spec "json" true true Sample.ready).2)
  = [Display unit CompatJSON
       (DJson unit (JDict {[ "data" := JDict {[ "name" := JStr "ibis_0" ]};
                             "mark" := JStr "bar" ]}))].
Proof. vm_compute. reflexivity. Qed.


(** A type that is none of the four fails the assertion. *)
Example ibis_renderer_extract_unknown_type :
  (Sample.renderer Sample.chart_spec "svg" true true Sample.ready).1
  = Raise AssertionError.
Proof. vm_compute. reflexivity. Qed.

(** * Further properties of the rewriter *)

Lemma truthy_pop_Some (k : string) (d : dict) :
  truthy (default JNull (d !! k)) = true → d !! k = Some (default JNull (d !! k)).
Proof. by destruct (d !! k). Qed.

Lemma pop_put_back (k : string) (d : dict) :
  truthy (default JNull (d !! k)) = true →
  <[k := default JNull (d !! k)]> (delete k d) = d.
Proof. intros Hk%truthy_pop_Some. by apply insert_delete_id. Qed.


Section RewriterEdges.
Variable columns : Expr → list string.

(** X1.  A spec without a "transform" key comes back as it is, with the
    expression as it is; an empty transform list loses its key; a transform
    that is null is not taken for an empty list: the loop raises
    TypeError. *)
Theorem update_spec_without_transforms (expr : Expr) (spec : dict) :
  update_spec columns expr (delete "transform" spec)
  = Ok (expr, delete "transform" spec) ∧
  update_spec columns expr (<["transform" := JList []]> spec)
  = Ok (expr, delete "transform" spec) ∧
  update_spec columns expr (<["transform" := JNull]> spec) = Raise TypeError.
Proof.
  unfold update_spec. split_and!.
  - rewrite lookup_delete_eq. result_simpl. cbn [transform_loop]. result_simpl.
    rewrite filter_nil. cbn [truthy].
    by rewrite delete_insert_eq, delete_delete_eq.
  - rewrite lookup_insert_eq. result_simpl. cbn [transform_loop]. result_simpl.
    rewrite filter_nil. cbn [truthy].
    by rewrite insert_insert_eq, delete_insert_eq.
  - by rewrite lookup_insert_eq.
Qed.

Lemma step_filter_submap original_expr expr (m : dict) e' (t' : dict) :
  step_filter original_expr expr (default JNull (m !! "filter")) (delete "filter" m)
  = Ok (e', t') →
  t' ⊆ m.
Proof.
  unfold step_filter. intros Hstep.
  destruct (truthy _) eqn:Htruthy; [|inversion Hstep; subst; apply delete_subseteq].
  destruct (default JNull (m !! "filter")) as [| | | | |f] eqn:Hf; try discriminate.
  apply result_bind_Ok in Hstep as (field & _ & Hstep).
  apply result_bind_Ok in Hstep as (preds & _ & Hstep).
  destruct preds; inversion Hstep; subst; [apply delete_subseteq|].
  rewrite <- Hf, pop_put_back; [done|]. by rewrite Hf.
Qed.

Lemma step_aggregate_submap original_expr expr (m : dict) e' (t' : dict) :
  step_aggregate original_expr expr m = Ok (e', t') → t' ⊆ m.
Proof.
  unfold step_aggregate, dict_pop. intros Hstep.
  apply result_bind_Ok in Hstep as (e1 & _ & Hstep).
  apply step_filter_submap in Hstep.
  etrans; [exact Hstep | apply delete_subseteq].
Qed.

Lemma transform_step_submap original_expr expr (d : dict) e' (d' : dict) :
  transform_step columns original_expr expr (JDict d) = Ok (e', JDict d') →
  d' ⊆ d.
Proof.
  unfold transform_step, dict_pop. intros Hstep.
  destruct (truthy _) eqn:Htruthy.
  - apply result_bind_Ok in Hstep as (fields & _ & Hstep).
    destruct (forallb _ _).
    + apply result_bind_Ok in Hstep as ([e1 d1] & Hagg & Hstep).
      inversion Hstep; subst. apply step_aggregate_submap in Hagg.
      etrans; [exact Hagg | apply delete_subseteq].
    + inversion Hstep; subst. by rewrite pop_put_back.
  - apply result_bind_Ok in Hstep as ([e1 d1] & Hagg & Hstep).
    inversion Hstep; subst. apply step_aggregate_submap in Hagg.
    etrans; [exact Hagg | apply delete_subseteq].
Qed.

Lemma transform_loop_submap original_expr expr (before after : list dict) e' :
  transform_loop columns original_expr expr (JDict <$> before)
  = Ok (e', JDict <$> after) →
  Forall2 (λ t t' : dict, t' ⊆ t) before after.
Proof.
  revert expr after. induction before as [|d before IH]; intros expr after Hloop.
  - inversion Hloop as [Hnil]. destruct after; [constructor | discriminate].
  - rewrite fmap_cons, transform_loop_cons in Hloop.
    apply result_bind_Ok in Hloop as ([e1 t'] & Hstep & Hloop).
    apply result_bind_Ok in Hloop as ([e2 rest] & Hrest & Hloop).
    injection Hloop as -> Hafter. destruct after as [|d' after]; [discriminate|].
    rewrite fmap_cons in Hafter. injection Hafter as -> ->.
    constructor; [by eapply transform_step_submap | by eapply IH].
Qed.

(** X2.  The rewriter only takes keys away: after a call that returns, the
    transform list is made of the entries of the list before, in their
    order, each with a part of its keys and the values they had, the
    entries left without a key being dropped.  No entry gains a key and no
    value is rewritten. *)
Theorem update_spec_only_removes (expr : Expr) (spec : dict) (expr' : Expr)
    (spec' : dict) :
  update_spec columns expr spec = Ok (expr', spec') →
  ∃ before after : list dict,
    py_iter (default (JList []) (spec !! "transform")) = Ok (JDict <$> before) ∧
    Forall2 (λ t t' : dict, t' ⊆ t) before after ∧
    spec' !! "transform"
    = match filter (λ d : dict, d ≠ ∅) after with
      | [] => None
      | kept => Some (JList (JDict <$> kept))
      end.
Proof.
  intros (before & after & Hiter & Hloop & _ & ->)%update_spec_inv.
  exists before, after. split_and!; [done| |].
  - by eapply transform_loop_submap.
  - destruct (filter _ after).
    + by rewrite lookup_delete_eq.
    + by rewrite lookup_insert_eq.
Qed.

Lemma transform_step_nothing_to_rewrite original_expr expr (t : dict) :
  nothing_to_rewrite t = true →
  transform_step columns original_expr expr (JDict t)
  = Ok (expr, JDict (without_rewritten_keys t)).
Proof.
  unfold nothing_to_rewrite. rewrite !andb_true_iff, !negb_true_iff.
  intros [[Hg Ha] Hf].
  unfold transform_step, step_aggregate, step_filter, dict_pop.
  rewrite Hg, !lookup_delete_ne, Ha by done. result_simpl.
  by rewrite Hf.
Qed.

Lemma transform_loop_nothing_to_rewrite original_expr expr (ts : list dict) :
  Forall (λ t, nothing_to_rewrite t = true) ts →
  transform_loop columns original_expr expr (JDict <$> ts)
  = Ok (expr, JDict <$> (without_rewritten_keys <$> ts)).
Proof.
  induction 1 as [|t ts Ht _ IH]; [done|].
  rewrite !fmap_cons, transform_loop_cons.
  rewrite transform_step_nothing_to_rewrite by done. result_simpl.
  by rewrite IH.
Qed.

(** X3.  When no entry of the transform list has a truthy "groupby",
    "aggregate" or "filter" (the entries are calculate, bin, timeUnit and
    other transforms, or hold an empty groupby or aggregate list), the
    expression is returned as it came and nothing is pushed down; keys that
    hold a falsy value are removed all the same, and an entry left without a
    key is dropped. *)
Theorem update_spec_nothing_to_rewrite (expr : Expr) (spec : dict) (ts : list dict) :
  spec !! "transform" = Some (JList (JDict <$> ts)) →
  Forall (λ t, nothing_to_rewrite t = true) ts →
  update_spec columns expr spec
  = Ok (expr,
        match filter (λ d : dict, d ≠ ∅) (without_rewritten_keys <$> ts) with
        | [] => delete "transform" spec
        | kept => <["transform" := JList (JDict <$> kept)]> spec
        end).
Proof.
  intros Hspec Hts. unfold update_spec. rewrite Hspec. result_simpl.
  rewrite transform_loop_nothing_to_rewrite by done. result_simpl.
  rewrite filter_truthy_dicts.
  destruct (filter _ (without_rewritten_keys <$> ts)) as [|d kept]; cbn [truthy fmap list_fmap].
  - by rewrite delete_insert_eq.
  - done.
Qed.

(** X4.  The rewriter reads the transform list at the top of the spec only.
    A sub-spec under the key "spec" (where retrieve_expr and set_data look
    for the data) is carried along as it is, whatever transforms it holds:
    the returned expression is the one of the spec without the sub-spec, and
    so is the rest of the spec. *)
Theorem update_spec_ignores_sub_spec (expr : Expr) (spec : dict) (sub : json) :
  update_spec columns expr (<["spec" := sub]> spec)
  = (λ r, (r.1, <["spec" := sub]> r.2)) <$> update_spec columns expr spec.
Proof.
  unfold update_spec. rewrite lookup_insert_ne by done.
  destruct (py_iter _) as [ts|]; [result_simpl|done].
  destruct (transform_loop _ _ _ ts) as [[e ts']|]; [result_simpl|done].
  destruct (truthy _); cbn [fmap result_fmap fst snd].
  - by rewrite insert_insert_ne.
  - by rewrite insert_insert_ne, delete_insert_ne.
Qed.



End RewriterEdges.

(** * Further properties of the registry *)

(** X8.  A spec that names no expression raises RuntimeError and leaves the
    globals as they were: a spec (or sub-spec) without "data", and one whose
    data has no "name" (inline values, a url).  A "data" that is not a dict
    raises TypeError, which the function does not turn into RuntimeError. *)
Theorem retrieve_expr_without_name (spec inner : dict) (g : globals) :
  (spec !! "spec" = Some (JDict inner) ∨ spec !! "spec" = None ∧ inner = spec) →
  (inner !! "data" = None → retrieve_expr spec g = (Raise RuntimeError, g)) ∧
  (∀ data : dict, inner !! "data" = Some (JDict data) → data !! "name" = None →
     retrieve_expr spec g = (Raise RuntimeError, g)) ∧
  (∀ v, inner !! "data" = Some v → (∀ d, v ≠ JDict d) →
     retrieve_expr spec g = (Raise TypeError, g)).
Proof.
  intros Hspec.
  assert (retrieve_expr spec g
          = match except_KeyError (data ← dict_get "data" inner; subscript data "name") with
            | Ok name => let '(r, g) := registry_pop name g in (except_KeyError r, g)
            | Raise e => (Raise e, g)
            end) as ->.
  { unfold retrieve_expr, has_key. by destruct Hspec as [->|[-> ->]]. }
  unfold dict_get. split_and!.
  - by intros ->.
  - intros data -> Hname. cbn [mbind result_bind subscript]. unfold dict_get.
    by rewrite Hname.
  - intros v -> Hv. cbn [mbind result_bind].
    destruct v as [| | | | |d]; try done. by destruct (Hv d).
Qed.

Lemma retrieve_expr_Ok_inv (spec : dict) (g g1 : globals) (expr : Expr) :
  retrieve_expr spec g = (Ok expr, g1) →
  ∃ name,
    _name_to_ibis g !! name = Some expr ∧
    g1 = Globals (_i g) (delete name (_name_to_ibis g)) ∧
    ∀ g0, retrieve_expr spec g0
          = let '(r, g0') := registry_pop (JStr name) g0 in (except_KeyError r, g0').
Proof.
  unfold retrieve_expr. destruct (except_KeyError _) as [name|e]; [|done].
  destruct name as [| | |s| |]; try done. simpl.
  destruct (_name_to_ibis g !! s) as [e|] eqn:Hs; [|done].
  intros [= -> <-]. by exists s.
Qed.

(** X9.  retrieve_expr never adds to the dictionary and never touches the
    counter: a call that returns an expression removes exactly the entry that
    held it, and a call that raises leaves the globals as they were. *)
Theorem retrieve_expr_only_removes (spec : dict) (g : globals) :
  _i (retrieve_expr spec g).2 = _i g ∧
  match (retrieve_expr spec g).1 with
  | Ok expr =>
      ∃ name, _name_to_ibis g !! name = Some expr ∧
              _name_to_ibis (retrieve_expr spec g).2 = delete name (_name_to_ibis g)
  | Raise _ => (retrieve_expr spec g).2 = g
  end.
Proof.
  destruct (retrieve_expr spec g) as [[expr|e] g1] eqn:Hr; cbn [fst snd].
  - apply retrieve_expr_Ok_inv in Hr as (name & Hname & -> & _).
    split; [done|]. by exists name.
  - assert (g1 = g) as ->; [|done].
    unfold retrieve_expr in Hr. destruct (except_KeyError _) as [name|e0].
    + destruct name as [| | |s| |]; simpl in Hr; try by injection Hr.
      destruct (_name_to_ibis g !! s); [done | by injection Hr].
    + by injection Hr.
Qed.

Lemma fresh_name (g : globals) :
  reachable g → _name_to_ibis g !! ("ibis_" +:+ pretty (_i g)) = None.
Proof.
  intros Hg. destruct (_name_to_ibis g !! _) as [e|] eqn:He; [|done].
  destruct (registry_names g Hg _ (mk_is_Some _ _ He)) as (j & Hj & Heq).
  apply String.app_inj, pretty_nat_inj in Heq. lia.
Qed.

Lemma retrieve_expr_named (spec inner data : dict) (name : string) (g : globals) :
  (spec !! "spec" = Some (JDict inner) ∨ spec !! "spec" = None ∧ inner = spec) →
  inner !! "data" = Some (JDict data) →
  data !! "name" = Some (JStr name) →
  retrieve_expr spec g
  = let '(r, g) := registry_pop (JStr name) g in (except_KeyError r, g).
Proof.
  intros Hspec Hdata Hname. unfold retrieve_expr, has_key.
  destruct Hspec as [->|[-> ->]]; simpl; unfold dict_get;
    rewrite Hdata; simpl; unfold dict_get; by rewrite Hname.
Qed.

(** X10.  What ibis_transformation returns is what retrieve_expr needs: in
    every state the module can reach, a spec (or sub-spec) whose "data" is
    the dict returned for a dataframe gives back the expression attached to
    that dataframe, and the dictionary is then what it was before the
    registration; the counter alone has moved on. *)
Theorem register_then_retrieve (g : globals) (df : DataFrame) (expr : Expr)
    (d spec inner : dict) :
  reachable g → df_ibis df = Some expr →
  (ibis_transformation (PFrame df) g).1 = Ok d →
  (spec !! "spec" = Some (JDict inner) ∨ spec !! "spec" = None ∧ inner = spec) →
  inner !! "data" = Some (JDict d) →
  retrieve_expr spec (ibis_transformation (PFrame df) g).2
  = (Ok expr, Globals (S (_i g)) (_name_to_ibis g)).
Proof.
  intros Hg Hibis Hd Hspec Hdata. pose proof (fresh_name g Hg) as Hnone.
  cbn [ibis_transformation] in Hd |- *. rewrite Hibis in Hd |- *.
  cbn [fst snd _i _name_to_ibis] in Hd |- *. injection Hd as <-.
  rewrite (retrieve_expr_named spec inner _ ("ibis_" +:+ pretty (_i g)) _
             Hspec Hdata (lookup_singleton_eq _ _)).
  cbn [registry_pop _i _name_to_ibis]. rewrite lookup_insert_eq.
  cbn [except_KeyError]. by rewrite delete_insert_id.
Qed.

Lemma retired_transformation (g : globals) (name : string) data :
  retired g name → retired (ibis_transformation data g).2 name.
Proof.
  intros [(j & Hj & ->) Hnone].
  destruct data as [| |df|];
    try (split; [exists j; split; [exact Hj|reflexivity] | exact Hnone]).
  unfold retired. cbn [ibis_transformation].
  destruct (df_ibis df) as [expr|]; cbn [snd _i _name_to_ibis].
  - split; [exists j; split; [lia|reflexivity]|].
    rewrite lookup_insert_ne; [done|].
    intros Heq. apply String.app_inj, pretty_nat_inj in Heq. lia.
  - split; [exists j; split; [lia|reflexivity] | done].
Qed.

Lemma retired_retrieve (g : globals) (name : string) spec :
  retired g name → retired (retrieve_expr spec g).2 name.
Proof.
  intros [Hj Hnone]. destruct (retrieve_expr_state spec g) as [->|[s ->]]; [done|].
  split; [done|]. cbn [_name_to_ibis].
  destruct (decide (s = name)) as [->|Hne].
  - apply lookup_delete_eq.
  - by rewrite lookup_delete_ne.
Qed.

Lemma retired_follows (g g' : globals) (name : string) :
  retired g name → follows g g' → retired g' name.
Proof.
  intros Hname. induction 1 as [|data g' _ IH|spec g' _ IH]; [done| |].
  - by apply retired_transformation.
  - by apply retired_retrieve.
Qed.

(** X11.  Names are never used again.  Once retrieve_expr has returned the
    expression of a spec, no later registration brings its name back: in
    every state that follows, whatever was registered or retrieved in
    between, retrieve_expr raises RuntimeError for that spec and changes
    nothing, so a spec cannot pick up the expression of another chart. *)
Theorem retrieved_name_never_returns (spec : dict) (g g1 g2 : globals)
    (expr : Expr) :
  reachable g → retrieve_expr spec g = (Ok expr, g1) → follows g1 g2 →
  retrieve_expr spec g2 = (Raise RuntimeError, g2).
Proof.
  intros Hg (name & Hname & -> & Hspec)%retrieve_expr_Ok_inv Hfollows.
  destruct (registry_names g Hg name (mk_is_Some _ _ Hname)) as (j & Hj & Heq).
  assert (retired (Globals (_i g) (delete name (_name_to_ibis g))) name) as Hretired.
  { split; [by exists j | apply lookup_delete_eq]. }
  destruct (retired_follows _ _ _ Hretired Hfollows) as [_ Hnone].
  rewrite Hspec. cbn [registry_pop]. by rewrite Hnone.
Qed.

(** * Further properties of set_data *)

(** X12.  The last call of set_data decides: setting the data of a spec that
    has had its data set gives the spec that setting it once gives; this
    holds for a spec with a sub-spec as for one without. *)
Theorem set_data_overwrites (spec spec1 data1 data2 : json) :
  set_data spec data1 = Ok spec1 →
  set_data spec1 data2 = set_data spec data2.
Proof.
  destruct spec as [| | | | |d]; try done. unfold set_data, has_key.
  destruct (d !! "spec") as [sub|] eqn:Hsub.
  - destruct sub as [| | | | |sub]; try done. intros [= <-].
    rewrite lookup_insert_eq. by rewrite !insert_insert_eq.
  - intros [= <-]. rewrite lookup_insert_ne, Hsub by done.
    by rewrite insert_insert_eq.
Qed.

(** X13.  set_data writes where retrieve_expr reads: after the data of a
    spec has been set to a dict with a name, retrieve_expr on that spec looks
    this name up, be the data in the spec or in its sub-spec: it returns the
    expression registered under the name and removes it, and raises
    RuntimeError when nothing is registered under it. *)
Theorem set_data_names_expression (spec spec' data : dict) (name : string)
    (g : globals) :
  data !! "name" = Some (JStr name) →
  set_data (JDict spec) (JDict data) = Ok (JDict spec') →
  (∀ expr, _name_to_ibis g !! name = Some expr →
     retrieve_expr spec' g
     = (Ok expr, Globals (_i g) (delete name (_name_to_ibis g)))) ∧
  (_name_to_ibis g !! name = None →
     retrieve_expr spec' g = (Raise RuntimeError, g)).
Proof.
  intros Hname Hset.
  assert (∃ inner : dict,
            (spec' !! "spec" = Some (JDict inner)
             ∨ spec' !! "spec" = None ∧ inner = spec') ∧
            inner !! "data" = Some (JDict data)) as (inner & Hspec & Hdata).
  { unfold set_data, has_key in Hset.
    destruct (spec !! "spec") as [sub|] eqn:Hsub.
    - destruct sub as [| | | | |sub]; try done. injection Hset as <-.
      exists (<["data" := JDict data]> sub). split.
      + left. apply lookup_insert_eq.
      + apply lookup_insert_eq.
    - injection Hset as <-. exists (<["data" := JDict data]> spec). split.
      + right. by rewrite lookup_insert_ne.
      + apply lookup_insert_eq. }
  rewrite (retrieve_expr_named spec' inner data name g Hspec Hdata Hname).
  cbn [registry_pop]. split.
  - by intros expr ->.
  - by intros ->.
Qed.

(** * Further properties of the patched constructor *)

Section PatchTwice.
Variable columns : Expr → list string.
Variable schema : Expr → list (string * string).
Variable R : Type.

#[local] Abbreviation patch := (monkeypatch_altair columns schema R).

(** X14.  Patching twice, as a reload of the module does.  The patched
    constructor passes data on by keyword and the other positional arguments
    by position, while it takes data itself as its first positional
    argument: on top of a constructor that has been patched already, a call
    with data alone (by position or by keyword) does what it does with one
    patch, and every call with a positional argument after data raises
    TypeError, whatever the original constructor is. *)
Theorem monkeypatch_altair_twice (Chart_init : init_fn R) (self data a : pyobj)
    (rest : list pyobj) (kw : gmap string pyobj) :
  patch (patch Chart_init) self [] kw = patch Chart_init self [] kw ∧
  patch (patch Chart_init) self [data] kw = patch Chart_init self [data] kw ∧
  patch (patch Chart_init) self (data :: a :: rest) kw = Raise TypeError.
Proof.
  unfold monkeypatch_altair. split_and!.
  - cbn [bind_data]. result_simpl. unfold updated_chart_init at 1.
    cbn [bind_data]. rewrite lookup_insert_eq. result_simpl.
    unfold updated_chart_init. cbn [from_option id].
    rewrite delete_insert_eq, delete_delete_eq.
    by destruct (default PNone (kw !! "data")).
  - cbn [bind_data]. destruct (kw !! "data") eqn:Hkw; [done|]. result_simpl.
    unfold updated_chart_init at 1.
    cbn [bind_data]. rewrite lookup_insert_eq. result_simpl.
    unfold updated_chart_init. cbn [from_option id].
    rewrite insert_delete_eq, insert_insert_eq. by destruct data.
  - cbn [bind_data]. destruct (kw !! "data") eqn:Hkw; [done|]. result_simpl.
    unfold updated_chart_init. cbn [bind_data]. by rewrite lookup_insert_eq.
Qed.
End PatchTwice.

(** * Further properties of the renderer *)

Lemma retrieve_expr_again (spec : dict) (g g1 : globals) (expr : Expr) :
  retrieve_expr spec g = (Ok expr, g1) →
  retrieve_expr spec g1 = (Raise RuntimeError, g1).
Proof.
  intros (name & _ & -> & ->)%retrieve_expr_Ok_inv.
  cbn [registry_pop _name_to_ibis]. by rewrite lookup_delete_eq.
Qed.

Section RendererEdges.
Variable columns : Expr → list string.
Variable Conn : Type.
Variable get_client : Expr → Conn.
Variable compile_sql : Expr → string.
Variable execute_to_json : Expr → json.
Variable format : DisplayObject Conn → json.

#[local] Abbreviation render :=
  (ibis_renderer columns Conn get_client compile_sql execute_to_json format).
#[local] Abbreviation deliver :=
  (comm_msg columns Conn get_client compile_sql execute_to_json).
#[local] Abbreviation shown :=
  (to_display columns Conn get_client compile_sql execute_to_json).

(** X15.  The renderer takes the expression of a spec out of the registry
    before it does anything else, so a spec is rendered at most once: after
    a call that found the expression, be it a call that returned or one that
    failed the assertion on its type, every further call for that spec, with
    whatever type and flags, raises RuntimeError and changes nothing. *)
Theorem ibis_renderer_consumes_expression (spec : dict) (k : kernel Conn)
    (expr : Expr) (g : globals) (type type' : string)
    (extract extract' compile compile' : bool) :
  retrieve_expr spec (k_globals Conn k) = (Ok expr, g) →
  let k1 := (render spec type extract compile k).2 in
  k_globals Conn k1 = g ∧
  (placeholder Conn get_client type expr = None →
     (render spec type extract compile k).1 = Raise AssertionError) ∧
  render spec type' extract' compile' k1 = (Raise RuntimeError, k1).
Proof.
  intros Hretrieve k1. pose proof (retrieve_expr_again _ _ _ _ Hretrieve) as Hagain.
  assert (k_globals Conn k1 = g) as Hg.
  { subst k1. unfold ibis_renderer. rewrite Hretrieve.
    destruct (placeholder _ _ _ _) as [[display_type display_data]|]; [|done].
    by destruct extract. }
  split_and!; [done| |].
  - intros Hplace. unfold ibis_renderer. by rewrite Hretrieve, Hplace.
  - unfold ibis_renderer. rewrite Hg, Hagain. rewrite <- Hg. by destruct k1.
Qed.

(** X16.  A placeholder and a comm come together or not at all.  Either the
    call leaves the outputs and the comms as they were, and then it was made
    with extract=False or it raised; or it was made with extract=True, it
    returned {"text/plain": ""}, and it added one output and one comm, the
    comm opened on "extract-vega-lite" with the spec and bound to the handle
    of that output.  Outputs and comms that were there are never touched. *)
Theorem ibis_renderer_outputs_and_comms (spec : dict) (type : string)
    (extract compile : bool) (k : kernel Conn) :
  let r := (render spec type extract compile k).1 in
  let k' := (render spec type extract compile k).2 in
  (k_outputs Conn k' = k_outputs Conn k ∧ k_comms Conn k' = k_comms Conn k ∧
   (extract = false ∨ ∃ e, r = Raise e)) ∨
  (extract = true ∧ r = Ok (JDict {[ "text/plain" := JStr "" ]}) ∧
   ∃ obj comm,
     k_outputs Conn k' = k_outputs Conn k ++ [obj] ∧
     k_comms Conn k' = k_comms Conn k ++ [comm] ∧
     target_name comm = COMM_ID ∧ comm_data comm = JDict spec ∧
     (on_msg comm).2 = length (k_outputs Conn k)).
Proof.
  unfold ibis_renderer. cbv zeta.
  destruct (retrieve_expr spec (k_globals Conn k)) as [[expr|e] g].
  - destruct (placeholder _ _ _ _) as [[display_type display_data]|].
    + destruct extract.
      * right. split_and!; [done..|]. by eexists _, _.
      * left. by eauto.
    + left. split_and!; [done..|]. right. by eexists.
  - left. split_and!; [done..|]. right. by eexists.
Qed.

Lemma comm_msg_cases (c : nat) (msg : json) (k : kernel Conn) :
  deliver c msg k = k ∨
  ∃ comm obj,
    k_comms Conn k !! c = Some comm ∧
    deliver c msg k = display_update Conn (on_msg comm).2 obj k.
Proof.
  unfold comm_msg. destruct (k_comms Conn k !! c) as [comm|]; [|by left].
  destruct (on_msg comm) as [ρ display_id] eqn:Hon.
  destruct (_ ≫= _) as [obj|]; [|by left]. right. exists comm, obj.
  split; [reflexivity|]. by rewrite Hon.
Qed.

(** X17.  A message changes one output at most: whatever the message and the
    comm it comes on, the globals, the comms and the number of outputs stay
    as they were, and every output other than the one the comm's callback is
    bound to stays as it was. *)
Theorem comm_msg_frame (c : nat) (msg : json) (k : kernel Conn) :
  let k' := deliver c msg k in
  k_globals Conn k' = k_globals Conn k ∧
  k_comms Conn k' = k_comms Conn k ∧
  length (k_outputs Conn k') = length (k_outputs Conn k) ∧
  ∀ i, (∀ comm, k_comms Conn k !! c = Some comm → i ≠ (on_msg comm).2) →
       k_outputs Conn k' !! i = k_outputs Conn k !! i.
Proof.
  cbv zeta. destruct (comm_msg_cases c msg k) as [->|(comm & obj & Hc & ->)];
    [done|].
  unfold display_update. cbn [k_globals k_comms k_outputs].
  split_and!; [done..|apply length_insert|].
  intros i Hi. apply list_lookup_insert_ne. intros <-. by apply (Hi comm).
Qed.

(** X18.  The last message decides.  The callback renders from the
    expression it was made with and not from what is displayed, so when a
    message renders, the kernel after it is the same whether or not another
    message came before it on that comm. *)
Theorem last_message_wins (c : nat) (msg1 : json) (msg2 content : dict)
    (s : json) (k : kernel Conn) (comm : Comm) (obj : DisplayObject Conn) :
  k_comms Conn k !! c = Some comm →
  msg2 !! "content" = Some (JDict content) →
  content !! "data" = Some s →
  shown (on_msg comm).1 s = Ok obj →
  deliver c (JDict msg2) (deliver c msg1 k) = deliver c (JDict msg2) k ∧
  deliver c (JDict msg2) k
  = Kernel Conn (k_globals Conn k)
      (<[(on_msg comm).2 := obj]> (k_outputs Conn k)) (k_comms Conn k).
Proof.
  intros Hc Hmsg Hcontent Hobj.
  assert (∀ k0, k_comms Conn k0 = k_comms Conn k →
            deliver c (JDict msg2) k0
            = Kernel Conn (k_globals Conn k0)
                (<[(on_msg comm).2 := obj]> (k_outputs Conn k0))
                (k_comms Conn k0)) as Hdeliver.
  { intros k0 Hk0. unfold comm_msg. rewrite Hk0, Hc.
    destruct (on_msg comm) as [ρ display_id]. cbn [subscript fst snd] in Hobj |- *.
    unfold dict_get. rewrite Hmsg. result_simpl. cbn [subscript].
    unfold dict_get. rewrite Hcontent. result_simpl.
    rewrite Hobj. unfold display_update. by rewrite Hk0. }
  split; [|by apply Hdeliver].
  rewrite (Hdeliver k eq_refl).
  destruct (comm_msg_cases c msg1 k) as [->|(comm1 & obj1 & Hc1 & ->)].
  - by apply Hdeliver.
  - rewrite Hdeliver by done. unfold display_update.
    cbn [k_globals k_comms k_outputs].
    rewrite Hc in Hc1. injection Hc1 as <-.
    by rewrite list_insert_insert_eq.
Qed.
End RendererEdges.

(** * The further properties at work on the sample database *)

Lemma update_spec_only_removes_witness :
  ∃ before after : list dict,
    py_iter (default (JList []) (Sample.late_spec !! "transform"))
    = Ok (JDict <$> before) ∧
    Forall2 (λ t t' : dict, t' ⊆ t) before after ∧
    Sample.late_spec' !! "transform"
    = match filter (λ d : dict, d ≠ ∅) after with
      | [] => None
      | kept => Some (JList (JDict <$> kept))
      end.
Proof.
  apply (update_spec_only_removes Sample.columns Sample.flights Sample.late_spec
           Sample.late Sample.late_spec').
  reflexivity.
Defined.

Lemma update_spec_nothing_to_rewrite_witness :
  update_spec Sample.columns Sample.flights Sample.other_transforms_spec
  = Ok (Sample.flights,
        match filter (λ d : dict, d ≠ ∅)
                (without_rewritten_keys <$> Sample.other_transforms) with
        | [] => delete "transform" Sample.other_transforms_spec
        | kept => <["transform" := JList (JDict <$> kept)]> Sample.other_transforms_spec
        end).
Proof.
  apply (update_spec_nothing_to_rewrite Sample.columns Sample.flights
           Sample.other_transforms_spec Sample.other_transforms).
  - reflexivity.
  - repeat constructor.
Defined.

Example empty_groupby_is_dropped :
  snd <$> update_spec Sample.columns Sample.flights Sample.other_transforms_spec
  = Ok {[ "mark" := JStr "bar";
          "transform" :=
            JList [JDict {[ "calculate" := JStr "datum.delay / 60";
                            "as" := JStr "hours" ]}] ]}.
Proof. vm_compute. reflexivity. Qed.




Lemma retrieve_expr_without_name_witness :
  retrieve_expr Sample.inline_spec Sample.registered
  = (Raise RuntimeError, Sample.registered).
Proof.
  refine (proj1 (proj2 (retrieve_expr_without_name Sample.inline_spec
                          Sample.inline_spec Sample.registered _))
            {[ "values" := JList [] ]} _ _); try reflexivity.
  right. split; reflexivity.
Defined.

Lemma register_then_retrieve_witness :
  retrieve_expr Sample.chart_spec
    (ibis_transformation (PFrame Sample.frame) initial_globals).2
  = (Ok Sample.flights, Globals 1 ∅).
Proof.
  apply (register_then_retrieve initial_globals Sample.frame Sample.flights
           {[ "name" := JStr "ibis_0" ]} Sample.chart_spec Sample.chart_spec).
  - apply reachable_initial.
  - reflexivity.
  - reflexivity.
  - right. split; reflexivity.
  - reflexivity.
Defined.

Lemma retrieved_name_never_returns_witness :
  retrieve_expr Sample.chart_spec Sample.registered_again
  = (Raise RuntimeError, Sample.registered_again).
Proof.
  apply (retrieved_name_never_returns Sample.chart_spec Sample.registered
           Sample.retrieved Sample.registered_again Sample.flights).
  - apply (reachable_transformation (PFrame Sample.frame) initial_globals).
    apply reachable_initial.
  - reflexivity.
  - apply (follows_transformation Sample.retrieved (PFrame Sample.frame)).
    apply follows_here.
Defined.

Example next_name_is_new :
  (ibis_transformation (PFrame Sample.frame) Sample.retrieved).1
  = Ok {[ "name" := JStr "ibis_1" ]}.
Proof. vm_compute. reflexivity. Qed.

Lemma set_data_overwrites_witness :
  set_data (JDict (<["data" := JList []]> Sample.chart_spec)) (JStr "rows")
  = set_data (JDict Sample.chart_spec) (JStr "rows").
Proof.
  apply (set_data_overwrites (JDict Sample.chart_spec)
           (JDict (<["data" := JList []]> Sample.chart_spec)) (JList []) (JStr "rows")).
  reflexivity.
Defined.

Lemma set_data_names_expression_witness :
  (∀ expr, _name_to_ibis Sample.registered !! "ibis_0" = Some expr →
     retrieve_expr (<["data" := JDict {[ "name" := JStr "ibis_0" ]}]> Sample.inline_spec)
       Sample.registered
     = (Ok expr, Globals (_i Sample.registered)
                   (delete "ibis_0" (_name_to_ibis Sample.registered)))) ∧
  (_name_to_ibis Sample.registered !! "ibis_0" = None →
     retrieve_expr (<["data" := JDict {[ "name" := JStr "ibis_0" ]}]> Sample.inline_spec)
       Sample.registered
     = (Raise RuntimeError, Sample.registered)).
Proof.
  apply (set_data_names_expression Sample.inline_spec
           (<["data" := JDict {[ "name" := JStr "ibis_0" ]}]> Sample.inline_spec)
           {[ "name" := JStr "ibis_0" ]} "ibis_0" Sample.registered).
  - reflexivity.
  - reflexivity.
Defined.

Lemma ibis_renderer_consumes_expression_witness :
  let k1 := (Sample.renderer Sample.chart_spec "svg" true true Sample.ready).2 in
  k_globals unit k1 = Sample.retrieved ∧
  (placeholder unit Sample.get_client "svg" Sample.flights = None →
     (Sample.renderer Sample.chart_spec "svg" true true Sample.ready).1
     = Raise AssertionError) ∧
  Sample.renderer Sample.chart_spec "json" false false k1
  = (Raise RuntimeError, k1).
Proof.
  apply (ibis_renderer_consumes_expression Sample.columns unit Sample.get_client
           Sample.compile_sql Sample.execute_to_json Sample.format
           Sample.chart_spec Sample.ready Sample.flights Sample.retrieved
           "svg" "json" true false true false).
  reflexivity.
Defined.

Lemma last_message_wins_witness :
  comm_msg Sample.columns unit Sample.get_client Sample.compile_sql
    Sample.execute_to_json 0 (JDict Sample.message)
    (comm_msg Sample.columns unit Sample.get_client Sample.compile_sql
       Sample.execute_to_json 0 (JStr "noise") Sample.waiting)
  = comm_msg Sample.columns unit Sample.get_client Sample.compile_sql
      Sample.execute_to_json 0 (JDict Sample.message) Sample.waiting ∧
  comm_msg Sample.columns unit Sample.get_client Sample.compile_sql
    Sample.execute_to_json 0 (JDict Sample.message) Sample.waiting
  = Kernel unit (k_globals unit Sample.waiting)
      (<[(on_msg Sample.waiting_comm).2 := Sample.chart]> (k_outputs unit Sample.waiting))
      (k_comms unit Sample.waiting).
Proof.
  apply (last_message_wins Sample.columns unit Sample.get_client
           Sample.compile_sql Sample.execute_to_json 0 (JStr "noise")
           Sample.message {[ "data" := JDict Sample.extracted ]}
           (JDict Sample.extracted) Sample.waiting Sample.waiting_comm Sample.chart).
  - reflexivity.
  - reflexivity.
  - reflexivity.
  - reflexivity.
Defined.

Example patched_twice_rejects_a_second_positional :
  monkeypatch_altair Sample.columns Sample.schema _
    (monkeypatch_altair Sample.columns Sample.schema _ Sample.echo_init) PNone
    [PFrame Sample.frame; PJson (JStr "extra")] ∅
  = Raise TypeError.
Proof. vm_compute. reflexivity. Qed.

(** * The fallback for field filters *)

Section Fallback.
Variable columns : Expr → list string.

End Fallback.

